(** * armcov: a QEMU TCG plugin logging bl/blr calls and writes to ttbr0_el1

    Shallow embedding of [contrib/plugins/armcov.c] and the properties of
    its callbacks.  The plugin keeps one text record per virtual CPU in a
    global array; a callback run before every interesting instruction
    completes the record of the previous one (msr) or of the current one
    (bl, blr) and sends it to the plugin output.

    Layout of the development:
    - [GLib]: the string helpers of GLib the plugin calls;
    - [Fmt]: the printf conversions it uses (%u, %d, %x, %02x);
    - the engine interface (register enumeration and register reads);
    - the plugin: globals, callbacks, installation;
    - lemmas on the helpers, then the properties of the callbacks. *)

From Stdlib Require Import Strings.String Strings.Ascii NArith ZArith Strings.Byte DecimalString HexString.
From stdpp Require Import base option list strings.

Local Open Scope string_scope.
Local Open Scope list_scope.

(** The newline character, written "\n" in the C source. *)
Definition nl : string := String "010"%char "".

(* ===================================================================== *)
(** * GLib string helpers *)
(* ===================================================================== *)

Module GLib.

(** [g_str_has_prefix (str, prefix)]. *)
Definition g_str_has_prefix (str pre : string) : bool := String.prefix pre str.

(** [g_strstr_len (haystack, -1, needle)]: the suffix of [haystack] that
    starts at the first occurrence of [needle], or NULL. *)
Fixpoint g_strstr_len (haystack needle : string) : option string :=
  if String.prefix needle haystack then Some haystack
  else match haystack with
       | "" => None
       | String _ rest => g_strstr_len rest needle
       end.

(** [g_strrstr (haystack, needle)]: the suffix of [haystack] that starts at
    the last occurrence of [needle], or NULL. *)
Fixpoint g_strrstr (haystack needle : string) : option string :=
  match haystack with
  | "" => if String.prefix needle "" then Some "" else None
  | String _ rest =>
      match g_strrstr rest needle with
      | Some r => Some r
      | None => if String.prefix needle haystack then Some haystack else None
      end
  end.

(** [p++] on a [char *]: the string one character further.  Moving past the
    terminating NUL is not a string any more. *)
Definition ptr_incr (p : string) : option string :=
  match p with
  | "" => None
  | String _ rest => Some rest
  end.

(** [g_strsplit (s, "=", 2)]: at most two tokens, split at the first '='.
    The empty string gives the empty vector. *)
Fixpoint split_first_eq (s : string) : option (string * string) :=
  match s with
  | "" => None
  | String c rest =>
      if Ascii.eqb c "="%char then Some ("", rest)
      else match split_first_eq rest with
           | Some (a, b) => Some (String c a, b)
           | None => None
           end
  end.

Definition g_strsplit_eq_2 (s : string) : list string :=
  match s with
  | "" => []
  | _ => match split_first_eq s with
         | Some (a, b) => [a; b]
         | None => [s]
         end
  end.

(** [g_strcmp0 (a, b) == 0], where NULL is a legal argument. *)
Definition g_strcmp0_eq (a b : option string) : bool :=
  match a, b with
  | None, None => true
  | Some x, Some y => String.eqb x y
  | _, _ => false
  end.

(** [g_pattern_spec_match_string (g_pattern_spec_new (pattern), str)]:
    glob matching, where '*' stands for any run of characters (also the
    empty one) and '?' for exactly one character. *)
Fixpoint g_pattern_match (pattern str : string) {struct pattern} : bool :=
  match pattern with
  | "" => match str with "" => true | _ => false end
  | String p pattern' =>
      if Ascii.eqb p "*"%char then
        (fix star (s : string) : bool :=
           g_pattern_match pattern' s
           || match s with
              | "" => false
              | String _ s' => star s'
              end) str
      else
        match str with
        | "" => false
        | String c str' =>
            (Ascii.eqb p "?"%char || Ascii.eqb p c) && g_pattern_match pattern' str'
        end
  end.

End GLib.

(* ===================================================================== *)
(** * printf conversions *)
(* ===================================================================== *)

Module Fmt.

(** [%u] and [%d] of a non-negative value. *)
Definition dec (n : nat) : string := NilZero.string_of_uint (Nat.to_uint n).

(** [%x] (also PRIx64, PRIx32): lower-case hexadecimal, no leading zero. *)
Definition hex (n : N) : string :=
  match n with
  | N0 => "0"
  | Npos p => HexString.Raw.of_pos p ""
  end.

Definition hex_digit (d : N) : ascii :=
  match d with
  | 0 => "0" | 1 => "1" | 2 => "2" | 3 => "3" | 4 => "4" | 5 => "5"
  | 6 => "6" | 7 => "7" | 8 => "8" | 9 => "9" | 10 => "a" | 11 => "b"
  | 12 => "c" | 13 => "d" | 14 => "e" | _ => "f"
  end%N%char.

(** [%02x] of one byte: always two digits. *)
Definition hex02 (b : byte) : string :=
  let n := Byte.to_N b in
  String (hex_digit (n / 16)) (String (hex_digit (n mod 16)) "").

End Fmt.

(* ===================================================================== *)
(** * The engine interface *)
(* ===================================================================== *)

(** [qemu_plugin_reg_descriptor]: a register's name and its opaque handle. *)
Record qemu_plugin_reg_descriptor := {
  handle : nat;
  name : string;
}.

(** What the plugin reads from QEMU during a callback.
    [qemu_plugin_get_registers] may return NULL ([None]).
    [qemu_plugin_read_register] appends the register's bytes to a buffer and
    returns their number; the bytes are what the model keeps. *)
Record Engine := {
  qemu_plugin_get_registers : nat -> option (list qemu_plugin_reg_descriptor);
  qemu_plugin_read_register : nat -> nat -> list byte;
}.

(** What the plugin writes: [qemu_plugin_outs] and [fprintf (stderr, ...)]. *)
Inductive Event :=
| Outs (s : string)
| Stderr (s : string).

(* ===================================================================== *)
(** * The plugin *)
(* ===================================================================== *)

(** [struct CPU]: [insn_rec] is a [GString], [index] the cpu index. *)
Record CPU := {
  insn_rec : string;
  index : nat;
}.

(** The file's globals.  [cpus] holds the initialised slots of the array, so
    [num_cpus] is its length; [cpus_lock] is not modelled. *)
Record Globals := {
  cpus : list CPU;
  fmt_bin : bool;
}.

Definition num_cpus (g : Globals) : nat := length (cpus g).

(** [rec->len] of a [GString]. *)
Definition len (rec : string) : nat := String.length rec.

(** A pointer as a truth value: not NULL. *)
Definition non_null {A : Type} (p : option A) : bool :=
  match p with Some _ => true | None => false end.

(** [rec->str] as a truth value: GLib keeps [str] pointing at a
    NUL-terminated buffer in every live [GString], also in the empty one
    that [g_string_new (NULL)] returns. *)
Definition str_non_null (rec : string) : bool := true.

(** [g_assert (index < num_cpus); cpu = &cpus[index]]: [None] is the failed
    assertion. *)
Definition get_cpu (i : nat) (g : Globals) : option CPU := cpus g !! i.

(** The write through the pointer [get_cpu] returned. *)
Definition set_insn_rec (i : nat) (cpu : CPU) (rec : string) (g : Globals) : Globals :=
  {| cpus := <[i := {| insn_rec := rec; index := index cpu |}]> (cpus g);
     fmt_bin := fmt_bin g |}.

(** The loop of [get_reg_desc]: the first descriptor whose name matches. *)
Fixpoint get_reg_desc_loop (l : list qemu_plugin_reg_descriptor) (reg_pat : string)
    : option qemu_plugin_reg_descriptor :=
  match l with
  | [] => None
  | d :: l' =>
      if GLib.g_pattern_match reg_pat (name d) then Some d
      else get_reg_desc_loop l' reg_pat
  end.

Definition get_reg_desc (reg_list : option (list qemu_plugin_reg_descriptor))
    (reg_pat : string) : option qemu_plugin_reg_descriptor :=
  match reg_list with
  | Some l => get_reg_desc_loop l reg_pat
  | None => None
  end.

(** The loop [for (i = regsize-1; i >= 0; i--)] of [read_register], entered
    with [n = regsize]. *)
Fixpoint append_reg_bytes (n : nat) (data : list byte) (record : string) : string :=
  match n with
  | O => record
  | S i =>
      append_reg_bytes i data
        (record +:+ match data !! i with Some b => Fmt.hex02 b | None => "" end)
  end.

Definition read_register (w : Engine) (cpu_index : nat)
    (desc : qemu_plugin_reg_descriptor) (record : string) : string :=
  let record := record +:+ ", " +:+ name desc +:+ " -> 0x" in
  let reg_buf := qemu_plugin_read_register w cpu_index (handle desc) in
  let regsize := length reg_buf in
  append_reg_bytes regsize reg_buf record +:+ nl.

(** The two diagnostics of [vcpu_insn_exec_cb]. *)
Definition not_found_msg (reg : string) (cpu : nat) : string :=
  "Failed to find register " +:+ reg +:+ " on cpu " +:+ Fmt.dec cpu +:+ "." +:+ nl.

(** The test [rec->len && g_strstr_len (rec->str, -1, mnemonic)] the
    callback makes three times. *)
Definition has_insn (rec mnemonic : string) : bool :=
  negb (Nat.eqb (len rec) 0) && non_null (GLib.g_strstr_len rec mnemonic).

(** [g_string_printf (rec, "%u, ", cpu_index); g_string_append (rec, udata)]. *)
Definition new_record (cpu_index : nat) (udata : string) : string :=
  Fmt.dec cpu_index +:+ ", " +:+ udata.

(** [blr_reg = g_strrstr (rec, " "); blr_reg++]. *)
Definition blr_reg_of (rec : string) : option string :=
  GLib.g_strrstr rec " " ≫= GLib.ptr_incr.

(** [vcpu_insn_exec_cb (cpu_index, udata)]; [None] is an abort.  The first
    [match] is the block on the previous instruction: [inl] is its early
    [return], [inr] what it printed before the callback goes on. *)
Definition vcpu_insn_exec_cb (w : Engine) (cpu_index : nat) (udata : string)
    (g : Globals) : option (Globals * list Event) :=
  cpu ← get_cpu cpu_index g;
  (* print the previous instruction if it was msr ttbr0_el1 *)
  let previous : list Event + list Event :=
    if has_insn (insn_rec cpu) "msr" then
      match get_reg_desc (qemu_plugin_get_registers w (index cpu)) "TTBR0_EL1" with
      | None => inl [Stderr (not_found_msg "TTBR0_EL1" (index cpu))]
      | Some desc => inr [Outs (read_register w cpu_index desc (insn_rec cpu))]
      end
    else inr [] in
  match previous with
  | inl diag => Some (g, diag)
  | inr out1 =>
      (* store the next instruction in insn_rec *)
      let rec := new_record cpu_index udata in
      if has_insn rec "blr" then
        blr_reg ← blr_reg_of rec;
        match get_reg_desc (qemu_plugin_get_registers w (index cpu)) blr_reg with
        | None =>
            Some (set_insn_rec cpu_index cpu rec g,
                  out1 ++ [Stderr (not_found_msg blr_reg (index cpu))])
        | Some desc =>
            let rec' := read_register w cpu_index desc rec in
            Some (set_insn_rec cpu_index cpu rec' g, out1 ++ [Outs rec'])
        end
      else if has_insn rec "bl" then
        (* if instr is bl then print it now *)
        let rec' := rec +:+ nl in
        Some (set_insn_rec cpu_index cpu rec' g, out1 ++ [Outs rec'])
      else
        Some (set_insn_rec cpu_index cpu rec g, out1)
  end.

(** [struct qemu_plugin_insn] as the plugin reads it: the virtual address,
    the bytes of the instruction and its disassembly. *)
Record qemu_plugin_insn := {
  qemu_plugin_insn_vaddr : N;
  qemu_plugin_insn_data : list byte;
  qemu_plugin_insn_disas : string;
}.

(** [*((uint32_t * ) data)] on a little-endian host: the first four bytes,
    the lowest first. *)
Definition load_u32 (data : list byte) : N :=
  let b (i : nat) : N := Byte.to_N (default x00 (data !! i)) in
  (b 0%nat + 256 * (b 1%nat + 256 * (b 2%nat + 256 * b 3%nat)))%N.

(** [enum qemu_plugin_cb_flags]. *)
Inductive qemu_plugin_cb_flags :=
| QEMU_PLUGIN_CB_NO_REGS
| QEMU_PLUGIN_CB_R_REGS
| QEMU_PLUGIN_CB_RW_REGS.

(** One call of [qemu_plugin_register_vcpu_insn_exec_cb]: the instruction
    (its position in the block), the flags and the user data.  The callback
    is [vcpu_insn_exec_cb] in every call. *)
Record insn_exec_registration := {
  reg_insn : nat;
  reg_flags : qemu_plugin_cb_flags;
  reg_udata : string;
}.

(** The string [output] built for an instruction that is not skipped. *)
Definition insn_output (insn : qemu_plugin_insn) : string :=
  "0x" +:+ Fmt.hex (qemu_plugin_insn_vaddr insn) +:+ ", 0x"
  +:+ Fmt.hex (load_u32 (qemu_plugin_insn_data insn)) +:+ ", "
  +:+ qemu_plugin_insn_disas insn.

(** The value of [skip] after the two prefix tests. *)
Definition skip (disas : string) : bool :=
  let skip := true in
  let skip := if GLib.g_str_has_prefix disas "bl" then false else skip in
  let skip := if GLib.g_str_has_prefix disas "msr ttbr0" then false else skip in
  skip.

(** The loop of [vcpu_tb_trans], from instruction [i] on. *)
Fixpoint vcpu_tb_trans_loop (i : nat) (insns : list qemu_plugin_insn)
    : list insn_exec_registration :=
  match insns with
  | [] => []
  | insn :: rest =>
      (if skip (qemu_plugin_insn_disas insn) then []
       else [ {| reg_insn := i;
                 reg_flags := QEMU_PLUGIN_CB_R_REGS;
                 reg_udata := insn_output insn |} ])
      ++ vcpu_tb_trans_loop (S i) rest
  end.

Definition vcpu_tb_trans (tb : list qemu_plugin_insn) : list insn_exec_registration :=
  vcpu_tb_trans_loop 0 tb.

(** The loop [while (vcpu_index >= num_cpus)] of [vcpu_init], with the number
    of iterations left. *)
Fixpoint vcpu_init_loop (n : nat) (vcpu_index : nat) (l : list CPU) : list CPU :=
  match n with
  | O => l
  | S n' => vcpu_init_loop n' vcpu_index (l ++ [ {| insn_rec := ""; index := vcpu_index |} ])
  end.

Definition vcpu_init (vcpu_index : nat) (g : Globals) : Globals :=
  if decide (num_cpus g <= vcpu_index) then
    {| cpus := vcpu_init_loop (vcpu_index + 1 - num_cpus g) vcpu_index (cpus g);
       fmt_bin := fmt_bin g |}
  else g.

(** The loop of [plugin_exit]. *)
Fixpoint plugin_exit_loop (l : list CPU) : list CPU * list Event :=
  match l with
  | [] => ([], [])
  | c :: rest =>
      let (c', out) :=
        if str_non_null (insn_rec c) then
          let rec := insn_rec c +:+ nl in
          ({| insn_rec := rec; index := index c |}, [Outs rec])
        else (c, []) in
      let (rest', outs) := plugin_exit_loop rest in
      (c' :: rest', out ++ outs)
  end.

Definition plugin_exit (g : Globals) : Globals * list Event :=
  let (l, outs) := plugin_exit_loop (cpus g) in
  ({| cpus := l; fmt_bin := fmt_bin g |}, outs).

(** [qemu_info_t], the fields the plugin reads. *)
Record qemu_info_t := {
  system_emulation : bool;
  max_vcpus : nat;
}.

(** The callbacks [qemu_plugin_install] registers. *)
Inductive plugin_cb :=
| Vcpu_init_cb
| Vcpu_tb_trans_cb
| Atexit_cb.

Record install_result := {
  ret : Z;
  globals : Globals;
  registered : list plugin_cb;
  diagnostics : list Event;
}.

(** The globals when the plugin is loaded: zero-initialised statics. *)
Definition initial_globals : Globals := {| cpus := []; fmt_bin := false |}.

Section Install.

(** [qemu_plugin_bool_parse (name, value, &ret)] of the plugin API: [None]
    is the failure, [Some b] the boolean stored in [ret]. *)
Variable qemu_plugin_bool_parse : option string -> option string -> option bool.

(** The loop over [argv]: whether every option was accepted, the globals and
    the diagnostics printed. *)
Fixpoint parse_options (argv : list string) (g : Globals) : bool * Globals * list Event :=
  match argv with
  | [] => (true, g, [])
  | opt :: rest =>
      let tokens := GLib.g_strsplit_eq_2 opt in
      if GLib.g_strcmp0_eq (tokens !! 0%nat) (Some "binary") then
        match qemu_plugin_bool_parse (tokens !! 0%nat) (tokens !! 1%nat) with
        | None => (false, g, [Stderr ("boolean argument parsing failed: " +:+ opt +:+ nl)])
        | Some b =>
            let '(ok, g', evs) :=
              parse_options rest {| cpus := cpus g; fmt_bin := b |} in
            (ok, g', Stderr ("binary format option not yet supported" +:+ nl) :: evs)
        end
      else (false, g, [Stderr ("option parsing failed: " +:+ opt +:+ nl)])
  end.

(** [qemu_plugin_install].  [g_new (CPU, max_vcpus)] reserves storage and
    initialises no slot, so [cpus] stays empty. *)
Definition qemu_plugin_install (info : qemu_info_t) (argv : list string) : install_result :=
  let '(ok, g, evs) := parse_options argv initial_globals in
  if ok then
    {| ret := 0; globals := g;
       registered := [Vcpu_init_cb; Vcpu_tb_trans_cb; Atexit_cb];
       diagnostics := evs |}
  else
    {| ret := -1; globals := g; registered := []; diagnostics := evs |}.

End Install.

(** ** Runs of the plugin

    The callbacks QEMU makes after installation, in the order it makes
    them; an instruction callback comes with the state of the engine at
    that time. *)
Inductive Callback :=
| InsnExec (w : Engine) (cpu_index : nat) (udata : string)
| VcpuInit (vcpu_index : nat)
| PluginExit.

Definition callback (cb : Callback) (g : Globals) : option (Globals * list Event) :=
  match cb with
  | InsnExec w cpu_index udata => vcpu_insn_exec_cb w cpu_index udata g
  | VcpuInit vcpu_index => Some (vcpu_init vcpu_index g, [])
  | PluginExit => Some (plugin_exit g)
  end.

(** The globals and the output after a run; [None] when a callback aborts. *)
Fixpoint run (cbs : list Callback) (g : Globals) : option (Globals * list Event) :=
  match cbs with
  | [] => Some (g, [])
  | cb :: rest =>
      '(g1, out1) ← callback cb g;
      '(g2, out2) ← run rest g1;
      Some (g2, out1 ++ out2)
  end.

(* ===================================================================== *)
(** * Vocabulary of the properties *)
(* ===================================================================== *)

(** A line the plugin printed is a record of the instruction [udata] run on
    [cpu_index] when it starts with the text the callback stores for it. *)
Definition is_record_of (cpu_index : nat) (udata : string) (e : Event) : bool :=
  match e with
  | Outs s => String.prefix (new_record cpu_index udata) s
  | Stderr _ => false
  end.

Definition records_of (cpu_index : nat) (udata : string) (out : list Event) : list Event :=
  filter (fun e => is_record_of cpu_index udata e = true) out.

(** What the block of [vcpu_insn_exec_cb] on the previous instruction prints
    when it does not return. *)
Definition previous_out (w : Engine) (cpu_index : nat) (cpu : CPU) : list Event :=
  if has_insn (insn_rec cpu) "msr" then
    match get_reg_desc (qemu_plugin_get_registers w (index cpu)) "TTBR0_EL1" with
    | Some desc => [Outs (read_register w cpu_index desc (insn_rec cpu))]
    | None => []
    end
  else [].

(** That block does not return: no msr is pending, or [TTBR0_EL1] is found. *)
Definition goes_on (w : Engine) (cpu : CPU) : Prop :=
  has_insn (insn_rec cpu) "msr" = true ->
  is_Some (get_reg_desc (qemu_plugin_get_registers w (index cpu)) "TTBR0_EL1").

(** The text after the last space of [s], all of [s] when it has none. *)
Definition after_last_space (s : string) : string :=
  match GLib.g_strrstr s " " with
  | Some (String _ r) => r
  | _ => s
  end.

(** The last whitespace-delimited token of a text, in the words of the
    documentation: the last of its words. *)
Definition last_token (s : string) : option string := last (String.words s).

Fixpoint string_forallb (f : ascii -> bool) (s : string) : bool :=
  match s with
  | "" => true
  | String c s' => f c && string_forallb f s'
  end.

(** A text with none of the two characters a glob pattern reads specially. *)
Definition glob_free (s : string) : bool :=
  string_forallb (fun c => negb (Ascii.eqb c "*"%char) && negb (Ascii.eqb c "?"%char)) s.

(** A register name as QEMU gives them: not empty, no white space. *)
Definition plain_name (s : string) : bool :=
  negb (Nat.eqb (String.length s) 0)
  && string_forallb (fun c => negb (Ascii.is_space c)) s.

(** The hexadecimal digits of a register read, as [read_register] prints
    them: the last byte of the buffer first, two digits each. *)
Fixpoint hex_bytes (l : list byte) : string :=
  match l with
  | [] => ""
  | b :: l' => Fmt.hex02 b +:+ hex_bytes l'
  end.

(** An instruction the scanner does not skip. *)
Definition interesting (disas : string) : bool :=
  GLib.g_str_has_prefix disas "bl" || GLib.g_str_has_prefix disas "msr ttbr0".

(** An option that makes the installation fail: its key is not [binary], or
    its value does not parse as a boolean. *)
Definition bad_option (bool_parse : option string -> option string -> option bool)
    (opt : string) : Prop :=
  let tokens := GLib.g_strsplit_eq_2 opt in
  tokens !! 0%nat <> Some "binary" \/ bool_parse (tokens !! 0%nat) (tokens !! 1%nat) = None.

(** The same as a test: the option passes both tests of the loop. *)
Definition accepted (bool_parse : option string -> option string -> option bool)
    (opt : string) : bool :=
  let tokens := GLib.g_strsplit_eq_2 opt in
  GLib.g_strcmp0_eq (tokens !! 0%nat) (Some "binary")
  && non_null (bool_parse (tokens !! 0%nat) (tokens !! 1%nat)).

(** The globals with another value of [fmt_bin]. *)
Definition with_fmt_bin (b : bool) (g : Globals) : Globals :=
  {| cpus := cpus g; fmt_bin := b |}.

(** Every slot carries its own position as [index]. *)
Definition tags_are_positions (g : Globals) : Prop :=
  forall k cpu, cpus g !! k = Some cpu -> index cpu = k.

(** The globals after the cpus of [l] came online in that order. *)
Definition online (l : list nat) : Globals :=
  foldl (fun g i => vcpu_init i g) initial_globals l.

(** Cpus came online in the order of their indices, none left out: at every
    moment the cpus seen so far are all the indices below some bound. *)
Definition in_index_order (l : list nat) : Prop :=
  forall p s, l = p ++ s -> forall x j, x ∈ p -> j < x -> j ∈ p.

(** ** Further vocabulary *)

(** A text that ends with the newline. *)
Definition ends_with_nl (s : string) : Prop := exists t, s = t +:+ nl.

(** What the plugin wrote is a full line, on either stream. *)
Definition is_line (e : Event) : Prop :=
  match e with
  | Outs s => ends_with_nl s
  | Stderr s => ends_with_nl s
  end.

Definition is_diagnostic (e : Event) : bool :=
  match e with
  | Outs _ => false
  | Stderr _ => true
  end.

(** A registration made for the same instruction [n] positions further in a
    longer block. *)
Definition shift_registration (n : nat) (r : insn_exec_registration)
    : insn_exec_registration :=
  {| reg_insn := n + reg_insn r; reg_flags := reg_flags r; reg_udata := reg_udata r |}.

(** The line [qemu_plugin_install] prints for an option it accepts. *)
Definition not_yet_supported : Event :=
  Stderr ("binary format option not yet supported" +:+ nl).

(** The line it prints for the option it rejects. *)
Definition rejection (opt : string) : Event :=
  if GLib.g_strcmp0_eq (GLib.g_strsplit_eq_2 opt !! 0%nat) (Some "binary")
  then Stderr ("boolean argument parsing failed: " +:+ opt +:+ nl)
  else Stderr ("option parsing failed: " +:+ opt +:+ nl).

(** The value of a hexadecimal digit as [Fmt.hex_digit] prints them, [None]
    for any other character. *)
Definition hex_value (c : ascii) : option N :=
  find (fun d => Ascii.eqb (Fmt.hex_digit d) c) (N.of_nat <$> seq 0 16).

(** The bytes a run of digit pairs stands for, read up to the first
    character that is no digit; [None] when a pair is cut short. *)
Fixpoint parse_hex_bytes (s : string) : option (list byte) :=
  match s with
  | String c1 (String c2 rest) =>
      match hex_value c1, hex_value c2 with
      | Some h, Some l =>
          b ← Byte.of_N (16 * h + l);
          bs ← parse_hex_bytes rest;
          Some (b :: bs)
      | Some _, None => None
      | None, _ => Some []
      end
  | String c "" => match hex_value c with Some _ => None | None => Some [] end
  | "" => Some []
  end.

(* ===================================================================== *)
(** * Sample engines, instructions and options *)
(* ===================================================================== *)

Module Sample.

Definition x3 : qemu_plugin_reg_descriptor := {| handle := 3; name := "x3" |}.
Definition ttbr0 : qemu_plugin_reg_descriptor := {| handle := 40; name := "TTBR0_EL1" |}.

(** Every cpu has [x3], holding 0x4005c0, and [TTBR0_EL1], both stored
    lowest byte first. *)
Definition engine : Engine :=
  {| qemu_plugin_get_registers := fun _ => Some [x3; ttbr0];
     qemu_plugin_read_register := fun _ h =>
       if Nat.eqb h 3 then [xc0; x05; x40; x00; x00; x00; x00; x00]
       else [x00; x10; x00; x80; x00; x00; x00; x00] |}.

(** The same cpus after a write to [TTBR0_EL1]. *)
Definition engine_switched : Engine :=
  {| qemu_plugin_get_registers := fun _ => Some [x3; ttbr0];
     qemu_plugin_read_register := fun _ h =>
       if Nat.eqb h 3 then [xc0; x05; x40; x00; x00; x00; x00; x00]
       else [x00; x20; x00; x80; x00; x00; x00; x00] |}.

(** An engine that does not list [TTBR0_EL1]. *)
Definition engine_no_ttbr0 : Engine :=
  {| qemu_plugin_get_registers := fun _ => Some [x3];
     qemu_plugin_read_register := fun _ _ => [xc0; x05; x40; x00; x00; x00; x00; x00] |}.

(** An engine whose read of [x3] fills the buffer with
    00 00 00 00 00 40 05 c0, in this order. *)
Definition engine_msb_first : Engine :=
  {| qemu_plugin_get_registers := fun _ => Some [x3];
     qemu_plugin_read_register := fun _ _ => [x00; x00; x00; x00; x00; x40; x05; xc0] |}.

(** An engine where only cpu 1 has registers. *)
Definition engine_cpu1_only : Engine :=
  {| qemu_plugin_get_registers := fun i => if Nat.eqb i 1 then Some [x3; ttbr0] else Some [];
     qemu_plugin_read_register := qemu_plugin_read_register engine |}.

Definition bl : qemu_plugin_insn :=
  {| qemu_plugin_insn_vaddr := 0x400500;
     qemu_plugin_insn_data := [x58; x00; x00; x94];
     qemu_plugin_insn_disas := "bl #0x4005c0" |}.

Definition blr : qemu_plugin_insn :=
  {| qemu_plugin_insn_vaddr := 0x400504;
     qemu_plugin_insn_data := [x60; x00; x3f; xd6];
     qemu_plugin_insn_disas := "blr x3" |}.

Definition msr1 : qemu_plugin_insn :=
  {| qemu_plugin_insn_vaddr := 0x1000;
     qemu_plugin_insn_data := [x00; x20; x18; xd5];
     qemu_plugin_insn_disas := "msr ttbr0_el1, x0" |}.

Definition msr2 : qemu_plugin_insn :=
  {| qemu_plugin_insn_vaddr := 0x2000;
     qemu_plugin_insn_data := [x01; x20; x18; xd5];
     qemu_plugin_insn_disas := "msr ttbr0_el1, x1" |}.

Definition nop : qemu_plugin_insn :=
  {| qemu_plugin_insn_vaddr := 0x400508;
     qemu_plugin_insn_data := [x1f; x20; x03; xd5];
     qemu_plugin_insn_disas := "nop" |}.

(** One cpu online, nothing recorded yet. *)
Definition one_cpu : Globals := vcpu_init 0 initial_globals.

(** One cpu online whose last instruction was [msr1]. *)
Definition after_msr1 : Globals :=
  {| cpus := [ {| insn_rec := new_record 0 (insn_output msr1); index := 0 |} ];
     fmt_bin := false |}.

(** A boolean parser in the manner of QEMU's: a missing value fails. *)
Definition bool_parse (key value : option string) : option bool :=
  match key, value with
  | Some _, Some v =>
      if String.eqb v "on" || String.eqb v "true" || String.eqb v "yes" || String.eqb v "y"
      then Some true
      else if String.eqb v "off" || String.eqb v "false" || String.eqb v "no"
              || String.eqb v "n"
      then Some false else None
  | _, _ => None
  end.

Definition info : qemu_info_t := {| system_emulation := true; max_vcpus := 4 |}.

End Sample.

(* ===================================================================== *)
(** * Lemmas on the string helpers *)
(* ===================================================================== *)

Section StringFacts.

Implicit Types (s t u : string) (c : ascii).

Lemma app_cons c s t : String c s +:+ t = String c (s +:+ t).
Proof. reflexivity. Qed.

Lemma app_empty_r s : s +:+ "" = s.
Proof. induction s as [|c s IH]; [reflexivity|]. rewrite app_cons, IH. reflexivity. Qed.

Lemma app_assoc_str s t u : (s +:+ t) +:+ u = s +:+ (t +:+ u).
Proof.
  induction s as [|c s IH]; [reflexivity|].
  rewrite !app_cons, IH. reflexivity.
Qed.

Lemma length_app_str s t : String.length (s +:+ t) = String.length s + String.length t.
Proof.
  induction s as [|c s IH]; [reflexivity|].
  rewrite app_cons. simpl. rewrite IH. reflexivity.
Qed.

Lemma prefix_empty s : String.prefix "" s = true.
Proof. destruct s; reflexivity. Qed.

Lemma prefix_cons c d s t :
  String.prefix (String c s) (String d t) = Ascii.eqb c d && String.prefix s t.
Proof.
  cbn [String.prefix]. destruct (ascii_dec c d) as [->|Hne].
  - rewrite Ascii.eqb_refl. reflexivity.
  - apply Ascii.eqb_neq in Hne. rewrite Hne. reflexivity.
Qed.

Lemma prefix_app s t : String.prefix s (s +:+ t) = true.
Proof.
  induction s as [|c s IH]; [apply prefix_empty|].
  rewrite app_cons, prefix_cons, IH, Ascii.eqb_refl. reflexivity.
Qed.

Lemma prefix_inv s t : String.prefix s t = true -> exists u, t = s +:+ u.
Proof.
  revert s. induction t as [|c t IH]; intros [|d s] H.
  - exists "". reflexivity.
  - discriminate.
  - exists (String c t). reflexivity.
  - rewrite prefix_cons in H. apply andb_prop in H as [Hc H].
    apply Ascii.eqb_eq in Hc as ->.
    destruct (IH _ H) as [u ->]. exists u. reflexivity.
Qed.

(** ** [g_strstr_len] *)

Lemma strstr_here s needle :
  String.prefix needle s = true -> GLib.g_strstr_len s needle = Some s.
Proof. intros H. destruct s; cbn [GLib.g_strstr_len]; rewrite H; reflexivity. Qed.

Lemma strstr_cons c s needle :
  non_null (GLib.g_strstr_len s needle) = true ->
  non_null (GLib.g_strstr_len (String c s) needle) = true.
Proof.
  intros H. cbn [GLib.g_strstr_len].
  destruct (String.prefix needle (String c s)); [reflexivity|exact H].
Qed.

(** A needle found in [t] is found in every text that ends with [t]. *)
Lemma strstr_app_r s t needle :
  non_null (GLib.g_strstr_len t needle) = true ->
  non_null (GLib.g_strstr_len (s +:+ t) needle) = true.
Proof.
  intros H. induction s as [|c s IH]; [exact H|].
  rewrite app_cons. apply strstr_cons, IH.
Qed.

(** A needle that occurs in a text is found. *)
Lemma strstr_occurs s needle t :
  non_null (GLib.g_strstr_len (s +:+ needle +:+ t) needle) = true.
Proof.
  apply strstr_app_r. rewrite strstr_here; [reflexivity|apply prefix_app].
Qed.

(** ** [g_strrstr] with a space as needle *)

Lemma strrstr_space_head s r :
  GLib.g_strrstr s " " = Some r -> exists r', r = String " " r'.
Proof.
  induction s as [|c s IH]; cbn [GLib.g_strrstr]; [discriminate|].
  destruct (GLib.g_strrstr s " ") as [r0|] eqn:E.
  - intros [= <-]. apply IH. reflexivity.
  - rewrite prefix_cons, prefix_empty, andb_true_r.
    destruct (Ascii.eqb_spec " " c) as [<-|]; [|discriminate].
    intros [= <-]. eexists. reflexivity.
Qed.

Lemma strrstr_space_suffix s r :
  GLib.g_strrstr s " " = Some r -> exists p, s = p +:+ r.
Proof.
  revert r. induction s as [|c s IH]; cbn [GLib.g_strrstr]; intros r; [discriminate|].
  destruct (GLib.g_strrstr s " ") as [r0|] eqn:E.
  - intros [= <-]. destruct (IH _ eq_refl) as [p Hp].
    exists (String c p). rewrite app_cons, <- Hp. reflexivity.
  - rewrite prefix_cons, prefix_empty, andb_true_r.
    destruct (Ascii.eqb_spec " " c) as [<-|]; [|discriminate].
    intros [= <-]. exists "". reflexivity.
Qed.

(** The pointer the callback parses the register name from: whatever stands
    before the last ", " of the record, it is the text after the last space
    of what follows. *)
Lemma blr_reg_of_app s t :
  blr_reg_of (s +:+ String " " t) = Some (after_last_space t).
Proof.
  unfold blr_reg_of, after_last_space.
  induction s as [|c s IH].
  - change ("" +:+ String " " t) with (String " " t).
    cbn [GLib.g_strrstr].
    destruct (GLib.g_strrstr t " ") as [r|] eqn:E.
    + destruct (strrstr_space_head _ _ E) as [r' ->]. reflexivity.
    + rewrite prefix_cons, prefix_empty. reflexivity.
  - rewrite app_cons. cbn [GLib.g_strrstr].
    destruct (GLib.g_strrstr (s +:+ String " " t) " ") as [r|] eqn:E.
    + exact IH.
    + discriminate IH.
Qed.

Lemma blr_reg_of_new_record cpu_index udata :
  blr_reg_of (new_record cpu_index udata) = Some (after_last_space udata).
Proof.
  unfold new_record.
  change (Fmt.dec cpu_index +:+ ", " +:+ udata)
    with (Fmt.dec cpu_index +:+ ("," +:+ String " " udata)).
  rewrite <- app_assoc_str. apply blr_reg_of_app.
Qed.

Lemma after_last_space_app s t : after_last_space (s +:+ String " " t) = after_last_space t.
Proof.
  pose proof (blr_reg_of_app s t) as H. unfold blr_reg_of in H.
  unfold after_last_space at 1.
  destruct (GLib.g_strrstr (s +:+ String " " t) " ") as [r|]; [|discriminate].
  destruct r; simpl in H; [discriminate|]. congruence.
Qed.

(** The register name parsed from the record of a scanned instruction is
    the text after the last space of its disassembly. *)
Lemma after_last_space_insn_output insn :
  after_last_space (insn_output insn) = after_last_space (qemu_plugin_insn_disas insn).
Proof.
  unfold insn_output.
  set (a := Fmt.hex (qemu_plugin_insn_vaddr insn)).
  set (b := Fmt.hex (load_u32 (qemu_plugin_insn_data insn))).
  change ("0x" +:+ a +:+ ", 0x" +:+ b +:+ ", " +:+ qemu_plugin_insn_disas insn)
    with ("0x" +:+ (a +:+ (", 0x" +:+ (b +:+ ("," +:+ String " " (qemu_plugin_insn_disas insn)))))).
  rewrite <- !app_assoc_str. apply after_last_space_app.
Qed.

End StringFacts.

(** ** Words, and the last of them *)

Section Words.

Implicit Types (s t u : string) (c : ascii).

Lemma rev_app_rev_app t u acc :
  String.rev_app (String.rev_app t u) acc = String.rev_app u (t +:+ acc).
Proof.
  revert u. induction t as [|c t IH]; intros u; [reflexivity|].
  cbn [String.rev_app]. rewrite IH. reflexivity.
Qed.

Lemma words_go_no_space t u :
  string_forallb (fun c => negb (Ascii.is_space c)) t = true ->
  String.words_go (Some u) t = [String.rev (String.rev_app t u)].
Proof.
  revert u. induction t as [|c t IH]; intros u H; [reflexivity|].
  cbn [string_forallb] in H. apply andb_prop in H as [Hc H].
  cbn [String.words_go]. destruct (Ascii.is_space c); [discriminate|].
  cbn [from_option]. rewrite IH by exact H. reflexivity.
Qed.

(** A name without white space is one word. *)
Lemma words_plain t : plain_name t = true -> String.words t = [t].
Proof.
  unfold plain_name. intros H. apply andb_prop in H as [Hlen H].
  destruct t as [|c t]; [discriminate|].
  cbn [string_forallb] in H. apply andb_prop in H as [Hc H].
  unfold String.words. cbn [String.words_go].
  destruct (Ascii.is_space c); [discriminate|]. cbn [from_option].
  rewrite words_go_no_space by exact H.
  unfold String.rev. rewrite rev_app_rev_app. cbn [String.rev_app].
  rewrite app_empty_r. reflexivity.
Qed.

Lemma words_go_app_space s t cur :
  exists l, String.words_go cur (s +:+ String " " t) = l ++ String.words t.
Proof.
  revert cur. induction s as [|c s IH]; intros cur.
  - exists (option_list (String.rev <$> cur)). reflexivity.
  - rewrite app_cons. cbn [String.words_go]. destruct (Ascii.is_space c).
    + destruct (IH None) as [l ->].
      exists (option_list (String.rev <$> cur) ++ l). rewrite (assoc (++)). reflexivity.
    + apply IH.
Qed.

(** When the text after the last space is a plain name, it is the last
    whitespace-delimited token. *)
Lemma last_token_after_last_space s :
  plain_name (after_last_space s) = true ->
  last_token s = Some (after_last_space s).
Proof.
  unfold last_token, after_last_space.
  destruct (GLib.g_strrstr s " ") as [r|] eqn:E.
  - destruct (strrstr_space_head _ _ E) as [r' ->].
    destruct (strrstr_space_suffix _ _ E) as [p ->]. intros H.
    destruct (words_go_app_space p r' None) as [l Hl].
    unfold String.words at 1. rewrite Hl, (words_plain _ H).
    apply last_snoc.
  - intros H. rewrite (words_plain _ H). reflexivity.
Qed.

End Words.

(** ** Glob patterns and the register lookup *)

Section Lookup.

(** A pattern without '*' and '?' matches itself only. *)
Lemma g_pattern_match_literal pattern str :
  glob_free pattern = true ->
  GLib.g_pattern_match pattern str = true ->
  str = pattern.
Proof.
  unfold glob_free. revert str.
  induction pattern as [|p pattern IH]; intros str Hfree Hm.
  - destruct str; [reflexivity|discriminate].
  - cbn [string_forallb] in Hfree.
    apply andb_prop in Hfree as [Hp Hfree]. apply andb_prop in Hp as [Hstar Hq].
    apply negb_true_iff in Hstar, Hq.
    cbn [GLib.g_pattern_match] in Hm. rewrite Hstar in Hm.
    destruct str as [|c str]; [discriminate|].
    apply andb_prop in Hm as [Hc Hm]. rewrite Hq in Hc. cbn [orb] in Hc.
    apply Ascii.eqb_eq in Hc as ->. f_equal. apply IH; assumption.
Qed.

Lemma get_reg_desc_loop_Some l reg_pat d :
  get_reg_desc_loop l reg_pat = Some d ->
  d ∈ l /\ GLib.g_pattern_match reg_pat (name d) = true.
Proof.
  induction l as [|d0 l IH]; cbn [get_reg_desc_loop]; [discriminate|].
  destruct (GLib.g_pattern_match reg_pat (name d0)) eqn:E.
  - intros [= <-]. split; [left|exact E].
  - intros H. destruct (IH H) as [Hin Hm]. split; [right; exact Hin|exact Hm].
Qed.

Lemma get_reg_desc_Some reg_list reg_pat d :
  get_reg_desc reg_list reg_pat = Some d ->
  exists l, reg_list = Some l /\ d ∈ l /\ GLib.g_pattern_match reg_pat (name d) = true.
Proof.
  destruct reg_list as [l|]; cbn [get_reg_desc]; [|discriminate].
  intros H. exists l. split; [reflexivity|]. apply get_reg_desc_loop_Some, H.
Qed.

(** The lookup of a literal name finds a register of that very name. *)
Lemma get_reg_desc_literal reg_list reg_pat d :
  glob_free reg_pat = true ->
  get_reg_desc reg_list reg_pat = Some d ->
  name d = reg_pat.
Proof.
  intros Hfree H. destruct (get_reg_desc_Some _ _ _ H) as (l & _ & _ & Hm).
  apply g_pattern_match_literal; assumption.
Qed.

End Lookup.

(** ** [read_register] *)

Section ReadRegister.

Lemma hex_bytes_length l : String.length (hex_bytes l) = 2 * length l.
Proof.
  induction l as [|b l IH]; [reflexivity|].
  cbn [hex_bytes length]. rewrite length_app_str, IH. cbn [Fmt.hex02 String.length]. lia.
Qed.

(** The loop prints the first [n] bytes of the buffer, the last of them
    first. *)
Lemma append_reg_bytes_spec n data record :
  n <= length data ->
  append_reg_bytes n data record = record +:+ hex_bytes (reverse (take n data)).
Proof.
  revert record. induction n as [|i IH]; intros record Hn.
  - cbn. rewrite app_empty_r. reflexivity.
  - cbn [append_reg_bytes].
    destruct (lookup_lt_is_Some_2 data i) as [b Hb]; [lia|].
    rewrite Hb, IH by lia.
    rewrite (take_S_r _ _ _ Hb), reverse_snoc. cbn [hex_bytes].
    rewrite app_assoc_str. reflexivity.
Qed.

Lemma read_register_spec w cpu_index desc record :
  read_register w cpu_index desc record
  = record +:+ ", " +:+ name desc +:+ " -> 0x"
    +:+ hex_bytes (reverse (qemu_plugin_read_register w cpu_index (handle desc))) +:+ nl.
Proof.
  unfold read_register. rewrite append_reg_bytes_spec by reflexivity.
  rewrite firstn_all, !app_assoc_str. reflexivity.
Qed.

End ReadRegister.

(** ** The cases of [vcpu_insn_exec_cb] *)

Section Callback.

Variables (w : Engine) (cpu_index : nat) (udata : string) (g : Globals) (cpu : CPU).
Hypothesis Hcpu : get_cpu cpu_index g = Some cpu.

Local Abbreviation prev := (previous_out w cpu_index cpu).

Lemma exec_cb_returns_early :
  has_insn (insn_rec cpu) "msr" = true ->
  get_reg_desc (qemu_plugin_get_registers w (index cpu)) "TTBR0_EL1" = None ->
  vcpu_insn_exec_cb w cpu_index udata g
  = Some (g, [Stderr (not_found_msg "TTBR0_EL1" (index cpu))]).
Proof.
  intros Hmsr Hnone. unfold vcpu_insn_exec_cb. rewrite Hcpu. cbn [mbind option_bind].
  rewrite Hmsr, Hnone. reflexivity.
Qed.

Lemma exec_cb_goes_on :
  goes_on w cpu ->
  vcpu_insn_exec_cb w cpu_index udata g
  = let rec := new_record cpu_index udata in
    if has_insn rec "blr" then
      match get_reg_desc (qemu_plugin_get_registers w (index cpu))
              (after_last_space udata) with
      | None =>
          Some (set_insn_rec cpu_index cpu rec g,
                prev ++ [Stderr (not_found_msg (after_last_space udata) (index cpu))])
      | Some desc =>
          Some (set_insn_rec cpu_index cpu (read_register w cpu_index desc rec) g,
                prev ++ [Outs (read_register w cpu_index desc rec)])
      end
    else if has_insn rec "bl" then
      Some (set_insn_rec cpu_index cpu (rec +:+ nl) g, prev ++ [Outs (rec +:+ nl)])
    else Some (set_insn_rec cpu_index cpu rec g, prev).
Proof.
  intros Hgo. unfold vcpu_insn_exec_cb, previous_out, goes_on in *.
  rewrite Hcpu. cbn [mbind option_bind].
  rewrite blr_reg_of_new_record. cbn [mbind option_bind].
  destruct (has_insn (insn_rec cpu) "msr").
  - destruct (get_reg_desc _ "TTBR0_EL1") as [d|]; [reflexivity|].
    destruct (Hgo eq_refl) as [? [=]].
  - reflexivity.
Qed.

End Callback.

(** ** Classification of a record, and the slot of a cpu *)

Section Records.

Lemma has_insn_app_r s t mnemonic :
  has_insn t mnemonic = true -> has_insn (s +:+ t) mnemonic = true.
Proof.
  unfold has_insn, len. intros H. apply andb_prop in H as [Hlen Hfound].
  apply andb_true_intro. split.
  - rewrite length_app_str. apply negb_true_iff, Nat.eqb_neq.
    apply negb_true_iff, Nat.eqb_neq in Hlen. lia.
  - apply strstr_app_r, Hfound.
Qed.

(** The record stored for a scanned instruction ends with its disassembly. *)
Lemma new_record_insn_output cpu_index insn :
  exists p, new_record cpu_index (insn_output insn) = p +:+ qemu_plugin_insn_disas insn.
Proof.
  unfold new_record, insn_output.
  eexists. rewrite <- !app_assoc_str. reflexivity.
Qed.

Lemma string_forallb_app f s t :
  string_forallb f (s +:+ t) = string_forallb f s && string_forallb f t.
Proof.
  induction s as [|c s IH]; [reflexivity|].
  rewrite app_cons. cbn [string_forallb]. rewrite IH, andb_assoc. reflexivity.
Qed.

Lemma string_forallb_after_last_space f s :
  string_forallb f s = true -> string_forallb f (after_last_space s) = true.
Proof.
  unfold after_last_space. destruct (GLib.g_strrstr s " ") as [r|] eqn:E; [|tauto].
  destruct (strrstr_space_head _ _ E) as [r' ->].
  destruct (strrstr_space_suffix _ _ E) as [p ->].
  rewrite string_forallb_app. cbn [string_forallb].
  intros H. apply andb_prop in H as [_ H]. apply andb_prop in H as [_ H]. exact H.
Qed.

Lemma get_cpu_set_insn_rec i cpu rec g :
  get_cpu i g = Some cpu ->
  get_cpu i (set_insn_rec i cpu rec g) = Some {| insn_rec := rec; index := index cpu |}.
Proof.
  unfold get_cpu, set_insn_rec. cbn [cpus]. intros H.
  apply list_lookup_insert_eq. eapply lookup_lt_Some, H.
Qed.

Lemma plugin_exit_loop_spec l :
  plugin_exit_loop l
  = ((fun c => {| insn_rec := insn_rec c +:+ nl; index := index c |}) <$> l,
     (fun c => Outs (insn_rec c +:+ nl)) <$> l).
Proof.
  induction l as [|c l IH]; [reflexivity|].
  cbn [plugin_exit_loop str_non_null]. rewrite IH. reflexivity.
Qed.

Lemma run_cons cb rest g g1 out1 g2 out2 :
  callback cb g = Some (g1, out1) ->
  run rest g1 = Some (g2, out2) ->
  run (cb :: rest) g = Some (g2, out1 ++ out2).
Proof. intros H1 H2. cbn [run]. rewrite H1. cbn. rewrite H2. reflexivity. Qed.

End Records.

Section Mnemonics.

Lemma strstr_Some s needle x :
  GLib.g_strstr_len s needle = Some x ->
  String.prefix needle x = true /\ exists p, s = p +:+ x.
Proof.
  induction s as [|c s IH]; cbn [GLib.g_strstr_len].
  - destruct (String.prefix needle "") eqn:E; [|discriminate].
    intros [= <-]. split; [exact E|]. exists "". reflexivity.
  - destruct (String.prefix needle (String c s)) eqn:E.
    + intros [= <-]. split; [exact E|]. exists "". reflexivity.
    + intros H. destruct (IH H) as [Hp [p Hs]]. split; [exact Hp|].
      exists (String c p). rewrite app_cons, <- Hs. reflexivity.
Qed.

(** A record in which "blr" is found is one in which "bl" is found: the
    order of the two tests in the callback matters. *)
Lemma has_insn_blr_bl rec : has_insn rec "blr" = true -> has_insn rec "bl" = true.
Proof.
  unfold has_insn. intros H. apply andb_prop in H as [Hlen Hfound].
  rewrite Hlen. cbn [andb].
  destruct (GLib.g_strstr_len rec "blr") as [x|] eqn:E; [|discriminate].
  destruct (strstr_Some _ _ _ E) as [Hp [p ->]].
  destruct (prefix_inv _ _ Hp) as [u ->].
  change ("blr" +:+ u) with ("bl" +:+ String "r" u).
  apply strstr_occurs.
Qed.

Lemma has_insn_no_bl_no_blr rec : has_insn rec "bl" = false -> has_insn rec "blr" = false.
Proof.
  intros H. destruct (has_insn rec "blr") eqn:E; [|reflexivity].
  rewrite (has_insn_blr_bl _ E) in H. discriminate.
Qed.

End Mnemonics.

(** ** The scanner *)

Section Scanner.

Lemma skip_interesting disas : skip disas = negb (interesting disas).
Proof.
  unfold skip, interesting.
  destruct (GLib.g_str_has_prefix disas "bl"), (GLib.g_str_has_prefix disas "msr ttbr0");
    reflexivity.
Qed.

(** No registration made from instruction [k] on is for an earlier one. *)
Lemma vcpu_tb_trans_loop_filter_lt k insns j :
  j < k -> filter (fun r => reg_insn r = j) (vcpu_tb_trans_loop k insns) = [].
Proof.
  revert k. induction insns as [|insn insns IH]; intros k Hj; [reflexivity|].
  cbn [vcpu_tb_trans_loop]. rewrite filter_app, IH by lia.
  destruct (skip _); [reflexivity|].
  rewrite filter_cons_False by (cbn [reg_insn]; lia). reflexivity.
Qed.

Lemma vcpu_tb_trans_loop_filter k insns i insn :
  insns !! i = Some insn ->
  filter (fun r => reg_insn r = k + i) (vcpu_tb_trans_loop k insns)
  = if interesting (qemu_plugin_insn_disas insn)
    then [ {| reg_insn := k + i; reg_flags := QEMU_PLUGIN_CB_R_REGS;
              reg_udata := insn_output insn |} ]
    else [].
Proof.
  revert k i. induction insns as [|insn0 insns IH]; intros k i; [discriminate|].
  cbn [vcpu_tb_trans_loop]. rewrite filter_app, skip_interesting.
  destruct i as [|i]; cbn [lookup list_lookup].
  - intros [= ->]. rewrite Nat.add_0_r.
    rewrite vcpu_tb_trans_loop_filter_lt by lia. rewrite app_nil_r.
    destruct (interesting _); cbn [negb]; [|reflexivity].
    rewrite filter_cons_True by reflexivity. reflexivity.
  - intros Hi. replace (k + S i) with (S k + i) by lia.
    rewrite (IH (S k) i Hi).
    destruct (interesting (qemu_plugin_insn_disas insn0)); cbn [negb]; [|reflexivity].
    rewrite filter_cons_False by (cbn [reg_insn]; lia). reflexivity.
Qed.

End Scanner.

(** ** Installation *)

Section InstallFacts.

Variable bool_parse : option string -> option string -> option bool.

Lemma g_strcmp0_eq_true a b : GLib.g_strcmp0_eq a b = true <-> a = b.
Proof.
  destruct a as [x|], b as [y|]; cbn [GLib.g_strcmp0_eq];
    try (split; [discriminate|intros [=]]); [|tauto].
  rewrite String.eqb_eq. split; [intros ->; reflexivity|intros [= ->]; reflexivity].
Qed.

Local Abbreviation acc := (accepted bool_parse).

Lemma accepted_false opt : acc opt = false <-> bad_option bool_parse opt.
Proof.
  unfold accepted, bad_option. cbv zeta.
  destruct (GLib.g_strcmp0_eq _ _) eqn:E.
  - apply g_strcmp0_eq_true in E. rewrite E. cbn [andb].
    destruct (bool_parse _ _); cbn [non_null]; split; try tauto; try discriminate.
    intros [H|H]; [destruct H; reflexivity|discriminate].
  - cbn [andb]. split; [|reflexivity]. intros _. left.
    intros H. apply g_strcmp0_eq_true in H. congruence.
Qed.

Lemma parse_options_spec argv g :
  (parse_options bool_parse argv g).1.1 = forallb acc argv
  /\ cpus (parse_options bool_parse argv g).1.2 = cpus g
  /\ ((parse_options bool_parse argv g).1.1 = true ->
      (parse_options bool_parse argv g).2
      = replicate (length argv) (Stderr ("binary format option not yet supported" +:+ nl))).
Proof.
  revert g. induction argv as [|opt argv IH]; intros g.
  - repeat split.
  - cbn [parse_options forallb]. unfold accepted at 1. cbv zeta.
    destruct (GLib.g_strcmp0_eq _ _); [|repeat split; discriminate].
    destruct (bool_parse _ _) as [b|]; [|repeat split; discriminate].
    cbn [non_null andb].
    specialize (IH {| cpus := cpus g; fmt_bin := b |}).
    destruct (parse_options bool_parse argv _) as [[ok g'] evs].
    cbn [fst snd] in *. destruct IH as (IH1 & IH2 & IH3).
    split; [exact IH1|]. split; [exact IH2|].
    intros Hok. cbn [length replicate]. rewrite (IH3 Hok). reflexivity.
Qed.

Lemma forallb_accepted_false argv :
  forallb acc argv = false <-> Exists (bad_option bool_parse) argv.
Proof.
  induction argv as [|opt argv IH]; cbn [forallb].
  - rewrite Exists_nil. split; [discriminate|tauto].
  - rewrite Exists_cons, andb_false_iff, accepted_false, IH. reflexivity.
Qed.

End InstallFacts.

(** No callback reads [fmt_bin]. *)
Lemma callback_fmt_bin cb g b :
  callback cb (with_fmt_bin b g)
  = (fun r => (with_fmt_bin b r.1, r.2)) <$> callback cb g.
Proof.
  destruct cb as [w c u|i|]; cbn [callback].
  - unfold vcpu_insn_exec_cb, get_cpu. cbn [with_fmt_bin cpus].
    destruct (cpus g !! c) as [cpu|]; [|reflexivity]. cbn [mbind option_bind].
    destruct (has_insn (insn_rec cpu) "msr");
      [destruct (get_reg_desc _ "TTBR0_EL1")|]; try reflexivity;
      (destruct (has_insn (new_record c u) "blr");
       [destruct (blr_reg_of (new_record c u)) as [reg|]; [|reflexivity];
        cbn [mbind option_bind]; destruct (get_reg_desc _ reg); reflexivity
       |destruct (has_insn (new_record c u) "bl"); reflexivity]).
  - cbn [fmap option_fmap option_map fst snd]. f_equal. f_equal.
    unfold vcpu_init, num_cpus. cbn [with_fmt_bin cpus fmt_bin].
    destruct (decide _); reflexivity.
  - cbn [fmap option_fmap option_map]. f_equal.
    unfold plugin_exit. cbn [with_fmt_bin cpus fmt_bin].
    destruct (plugin_exit_loop (cpus g)). reflexivity.
Qed.

(** ** The array of cpus *)

Section Registry.

Implicit Types (g : Globals) (l p s : list nat).

Lemma vcpu_init_loop_spec n i (cs : list CPU) :
  vcpu_init_loop n i cs = cs ++ replicate n {| insn_rec := ""; index := i |}.
Proof.
  revert cs. induction n as [|n IH]; intros cs; cbn [vcpu_init_loop replicate].
  - rewrite app_nil_r. reflexivity.
  - rewrite IH, <- (assoc (++)). reflexivity.
Qed.

(** [vcpu_init] appends the missing slots, all with the index of the cpu
    that came online. *)
Lemma vcpu_init_cpus i g :
  cpus (vcpu_init i g)
  = cpus g ++ replicate (i + 1 - num_cpus g) {| insn_rec := ""; index := i |}.
Proof.
  unfold vcpu_init. destruct (decide (num_cpus g <= i)) as [H|H]; cbn [cpus].
  - apply vcpu_init_loop_spec.
  - replace (i + 1 - num_cpus g) with 0 by lia. rewrite app_nil_r. reflexivity.
Qed.

Lemma vcpu_init_num_cpus i g : num_cpus (vcpu_init i g) = num_cpus g `max` (i + 1).
Proof.
  unfold num_cpus at 1. rewrite vcpu_init_cpus, length_app, length_replicate.
  unfold num_cpus. lia.
Qed.

Lemma online_snoc l x : online (l ++ [x]) = vcpu_init x (online l).
Proof. unfold online. rewrite foldl_app. reflexivity. Qed.

Lemma tags_vcpu_init_inv x g :
  tags_are_positions (vcpu_init x g) -> tags_are_positions g /\ x <= num_cpus g.
Proof.
  unfold tags_are_positions. rewrite vcpu_init_cpus. intros H. split.
  - intros k cpu Hk. apply (H k cpu). apply lookup_app_l_Some, Hk.
  - destruct (decide (x <= num_cpus g)) as [|Hlt]; [assumption|].
    specialize (H (num_cpus g) {| insn_rec := ""; index := x |}).
    cbn [index] in H. rewrite H; [reflexivity|].
    unfold num_cpus. rewrite lookup_app_r, Nat.sub_diag by reflexivity.
    apply lookup_replicate_2. unfold num_cpus in Hlt. lia.
Qed.

Lemma tags_vcpu_init x g :
  tags_are_positions g -> x <= num_cpus g -> tags_are_positions (vcpu_init x g).
Proof.
  unfold tags_are_positions. rewrite vcpu_init_cpus. intros H Hx k cpu Hk.
  apply lookup_app_Some in Hk as [Hk|[Hge Hk]]; [apply (H k cpu Hk)|].
  apply lookup_replicate in Hk as [-> Hlt]. cbn [index].
  unfold num_cpus in *. lia.
Qed.

(** While every slot carries its position, the cpus seen are the indices
    below [num_cpus]. *)
Lemma seen_below_num_cpus l :
  tags_are_positions (online l) -> forall j, j ∈ l <-> j < num_cpus (online l).
Proof.
  induction l as [|x l IH] using rev_ind; intros Htags j.
  - cbn. rewrite elem_of_nil. lia.
  - rewrite online_snoc in Htags |- *.
    apply tags_vcpu_init_inv in Htags as [Htags Hx].
    rewrite elem_of_app, list_elem_of_singleton, (IH Htags), vcpu_init_num_cpus. lia.
Qed.

Lemma tags_online_prefix p s :
  tags_are_positions (online (p ++ s)) -> tags_are_positions (online p).
Proof.
  induction s as [|x s IH] using rev_ind.
  - rewrite app_nil_r. tauto.
  - rewrite (assoc (++)), online_snoc. intros H.
    apply tags_vcpu_init_inv in H as [H _]. apply IH, H.
Qed.

Lemma tags_in_index_order l : tags_are_positions (online l) -> in_index_order l.
Proof.
  intros Htags p s -> x j Hx Hj.
  apply tags_online_prefix in Htags.
  apply (seen_below_num_cpus p Htags). apply (seen_below_num_cpus p Htags) in Hx. lia.
Qed.

Lemma in_index_order_tags l : in_index_order l -> tags_are_positions (online l).
Proof.
  induction l as [|x l IH] using rev_ind; intros Hord.
  - intros k cpu Hk. discriminate Hk.
  - assert (Hl : in_index_order l).
    { intros p s -> y j. apply (Hord p (s ++ [x])). rewrite (assoc (++)). reflexivity. }
    specialize (IH Hl). rewrite online_snoc. apply tags_vcpu_init; [exact IH|].
    destruct (decide (x <= num_cpus (online l))) as [|Hlt]; [assumption|].
    assert (Hn : num_cpus (online l) ∈ l ++ [x]).
    { apply (Hord (l ++ [x]) [] (eq_sym (app_nil_r _)) x); [|lia].
      apply elem_of_app. right. left. }
    apply elem_of_app in Hn as [Hn|Hn].
    + apply (seen_below_num_cpus l IH) in Hn. lia.
    + apply list_elem_of_singleton in Hn. lia.
Qed.

(** When every cpu comes online once, the positions are the indices only
    for the order 0, 1, 2, ... *)
Lemma tags_NoDup_seq l :
  NoDup l -> tags_are_positions (online l) -> l = seq 0 (length l).
Proof.
  induction l as [|x l IH] using rev_ind; intros Hnd Htags; [reflexivity|].
  apply NoDup_app in Hnd as (Hnd & Hx & _).
  rewrite online_snoc in Htags. apply tags_vcpu_init_inv in Htags as [Htags Hle].
  specialize (IH Hnd Htags).
  pose proof (seen_below_num_cpus l Htags) as Hseen.
  assert (Hlen : num_cpus (online l) = length l).
  { assert (Hseq : forall j, j ∈ l <-> j < length l).
    { intros j. rewrite IH at 1. rewrite elem_of_seq. lia. }
    pose proof (Hseen (length l)) as H1. pose proof (Hseen (num_cpus (online l))) as H2.
    rewrite Hseq in H1, H2. lia. }
  assert (x = length l) as ->.
  { pose proof (Hseen x) as H1.
    destruct (decide (x < num_cpus (online l))) as [Hlt|Hge]; [|lia].
    apply H1 in Hlt. destruct (Hx x Hlt). left. }
  rewrite length_app, Nat.add_1_r, seq_S, <- IH. reflexivity.
Qed.

End Registry.

(** ** The registers the callback enumerates *)

Lemma read_register_ext w w' cpu_index desc record :
  qemu_plugin_read_register w cpu_index (handle desc)
  = qemu_plugin_read_register w' cpu_index (handle desc) ->
  read_register w cpu_index desc record = read_register w' cpu_index desc record.
Proof. intros H. rewrite !read_register_spec, H. reflexivity. Qed.

Lemma exec_cb_registers_of_tag w w' c u g cpu :
  get_cpu c g = Some cpu ->
  qemu_plugin_get_registers w (index cpu) = qemu_plugin_get_registers w' (index cpu) ->
  (forall h, qemu_plugin_read_register w c h = qemu_plugin_read_register w' c h) ->
  vcpu_insn_exec_cb w c u g = vcpu_insn_exec_cb w' c u g.
Proof.
  intros Hcpu Hregs Hread. unfold vcpu_insn_exec_cb. rewrite Hcpu. cbn [mbind option_bind].
  rewrite <- Hregs.
  assert (Hrr : forall d r, read_register w' c d r = read_register w c d r)
    by (intros d r; symmetry; apply read_register_ext, Hread).
  destruct (has_insn (insn_rec cpu) "msr");
    [destruct (get_reg_desc _ "TTBR0_EL1")|]; try reflexivity;
    (destruct (has_insn (new_record c u) "blr");
     [destruct (blr_reg_of (new_record c u)) as [reg|]; [|reflexivity];
      cbn [mbind option_bind]; destruct (get_reg_desc _ reg); rewrite ?Hrr; reflexivity
     |destruct (has_insn (new_record c u) "bl"); rewrite ?Hrr; reflexivity]).
Qed.

(* ===================================================================== *)
(** * Properties of the callbacks *)
(* ===================================================================== *)

(** ** Two msr instructions in a row *)

(** C1, as stated, does not hold: with two msr instructions in a row on cpu 0
    and a bl after them, the record of the first msr is printed, completed
    with the value of TTBR0_EL1 read when the second one is about to run. *)
Lemma C1_first_msr_record_is_printed :
  (run [InsnExec Sample.engine 0 (insn_output Sample.msr1);
        InsnExec Sample.engine_switched 0 (insn_output Sample.msr2);
        InsnExec Sample.engine_switched 0 (insn_output Sample.bl)] Sample.one_cpu
   ≫= fun r => Some (records_of 0 (insn_output Sample.msr1) r.2))
  = Some [Outs ("0, 0x1000, 0xd5182000, msr ttbr0_el1, x0, TTBR0_EL1 -> 0x0000000080002000"
                +:+ nl)].
Proof. vm_compute. reflexivity. Qed.

(** C1, amended: of two msr instructions in a row on a cpu, the record of
    the first is completed and printed by the callback of the second, and
    the record of the second by the callback of the next interesting
    instruction, each with the value of TTBR0_EL1 read in that callback. *)
Theorem C1_consecutive_msr_both_printed
    (w1 w2 w3 : Engine) (c : nat) (g : Globals) (cpu : CPU) (u1 u2 u3 : string)
    (d2 d3 : qemu_plugin_reg_descriptor) :
  get_cpu c g = Some cpu ->
  goes_on w1 cpu ->
  has_insn (new_record c u1) "msr" = true ->
  has_insn (new_record c u1) "bl" = false ->
  has_insn (new_record c u2) "msr" = true ->
  has_insn (new_record c u2) "bl" = false ->
  get_reg_desc (qemu_plugin_get_registers w2 (index cpu)) "TTBR0_EL1" = Some d2 ->
  get_reg_desc (qemu_plugin_get_registers w3 (index cpu)) "TTBR0_EL1" = Some d3 ->
  exists g1 g2 g3 out3,
    vcpu_insn_exec_cb w1 c u1 g = Some (g1, previous_out w1 c cpu) /\
    vcpu_insn_exec_cb w2 c u2 g1
    = Some (g2, [Outs (read_register w2 c d2 (new_record c u1))]) /\
    vcpu_insn_exec_cb w3 c u3 g2
    = Some (g3, Outs (read_register w3 c d3 (new_record c u2)) :: out3).
Proof.
  intros Hcpu Hgo Hmsr1 Hbl1 Hmsr2 Hbl2 Hd2 Hd3.
  pose proof (has_insn_no_bl_no_blr _ Hbl1) as Hblr1.
  pose proof (has_insn_no_bl_no_blr _ Hbl2) as Hblr2.
  set (cpu1 := {| insn_rec := new_record c u1; index := index cpu |}).
  set (cpu2 := {| insn_rec := new_record c u2; index := index cpu |}).
  set (g1 := set_insn_rec c cpu (new_record c u1) g).
  set (g2 := set_insn_rec c cpu1 (new_record c u2) g1).
  assert (Hcpu1 : get_cpu c g1 = Some cpu1) by (apply get_cpu_set_insn_rec, Hcpu).
  assert (Hcpu2 : get_cpu c g2 = Some cpu2) by (apply (get_cpu_set_insn_rec c cpu1), Hcpu1).
  assert (Hgo1 : goes_on w2 cpu1) by (intros _; cbn [index cpu1]; rewrite Hd2; eauto).
  assert (Hgo2 : goes_on w3 cpu2) by (intros _; cbn [index cpu2]; rewrite Hd3; eauto).
  assert (Hprev1 : previous_out w2 c cpu1 = [Outs (read_register w2 c d2 (new_record c u1))]).
  { unfold previous_out. cbn [insn_rec index cpu1]. rewrite Hmsr1, Hd2. reflexivity. }
  assert (Hprev2 : previous_out w3 c cpu2 = [Outs (read_register w3 c d3 (new_record c u2))]).
  { unfold previous_out. cbn [insn_rec index cpu2]. rewrite Hmsr2, Hd3. reflexivity. }
  pose proof (exec_cb_goes_on w3 c u3 g2 cpu2 Hcpu2 Hgo2) as H3.
  rewrite Hprev2 in H3. cbv zeta in H3.
  assert (exists g3 out3, vcpu_insn_exec_cb w3 c u3 g2
            = Some (g3, Outs (read_register w3 c d3 (new_record c u2)) :: out3))
    as (g3 & out3 & H3').
  { rewrite H3. destruct (has_insn (new_record c u3) "blr").
    - destruct (get_reg_desc _ (after_last_space u3)); eexists _, _; reflexivity.
    - destruct (has_insn (new_record c u3) "bl"); eexists _, _; reflexivity. }
  exists g1, g2, g3, out3. split; [|split].
  - rewrite (exec_cb_goes_on w1 c u1 g cpu Hcpu Hgo). cbv zeta.
    rewrite Hblr1, Hbl1. reflexivity.
  - rewrite (exec_cb_goes_on w2 c u2 g1 cpu1 Hcpu1 Hgo1). cbv zeta.
    rewrite Hblr2, Hbl2, Hprev1. reflexivity.
  - exact H3'.
Qed.

(** The sample run as an instance: msr1, msr2, then bl on cpu 0. *)
Lemma C1_consecutive_msr_sample :
  exists g1 g2 g3 out3,
    vcpu_insn_exec_cb Sample.engine 0 (insn_output Sample.msr1) Sample.one_cpu
    = Some (g1, previous_out Sample.engine 0 {| insn_rec := ""; index := 0 |}) /\
    vcpu_insn_exec_cb Sample.engine_switched 0 (insn_output Sample.msr2) g1
    = Some (g2, [Outs (read_register Sample.engine_switched 0 Sample.ttbr0
                         (new_record 0 (insn_output Sample.msr1)))]) /\
    vcpu_insn_exec_cb Sample.engine_switched 0 (insn_output Sample.bl) g2
    = Some (g3, Outs (read_register Sample.engine_switched 0 Sample.ttbr0
                        (new_record 0 (insn_output Sample.msr2))) :: out3).
Proof.
  apply (C1_consecutive_msr_both_printed
           Sample.engine Sample.engine_switched Sample.engine_switched
           0 Sample.one_cpu {| insn_rec := ""; index := 0 |}).
  - reflexivity.
  - intros H. vm_compute in H. discriminate H.
  - vm_compute. reflexivity.
  - vm_compute. reflexivity.
  - vm_compute. reflexivity.
  - vm_compute. reflexivity.
  - vm_compute. reflexivity.
  - vm_compute. reflexivity.
Defined.

(** ** The lookup of TTBR0_EL1 fails *)

(** C2: when the lookup of TTBR0_EL1 for a pending msr record fails, the
    callback prints the diagnostic and returns at once.  The globals are
    left as they were: the pending record stays, the instruction about to
    run is not stored, and nothing is printed for it.  As long as the
    register stays missing this repeats, whatever instructions follow. *)
Theorem C2_lookup_failure_drops_instructions
    (c : nat) (g : Globals) (cpu : CPU) (insns : list (Engine * string)) :
  get_cpu c g = Some cpu ->
  has_insn (insn_rec cpu) "msr" = true ->
  Forall (fun wu => get_reg_desc (qemu_plugin_get_registers wu.1 (index cpu)) "TTBR0_EL1" = None)
         insns ->
  run ((fun wu => InsnExec wu.1 c wu.2) <$> insns) g
  = Some (g, (fun _ => Stderr (not_found_msg "TTBR0_EL1" (index cpu))) <$> insns).
Proof.
  intros Hcpu Hmsr Hall. induction Hall as [|[w u] insns Hw _ IH]; [reflexivity|].
  cbn [fmap list_fmap]. apply (run_cons _ _ g g [_] g); [|exact IH].
  apply exec_cb_returns_early; assumption.
Qed.

(** An instance: after [msr1], on an engine without TTBR0_EL1, a bl and a
    blr are both lost. *)
Lemma C2_lookup_failure_sample :
  run [InsnExec Sample.engine_no_ttbr0 0 (insn_output Sample.bl);
       InsnExec Sample.engine_no_ttbr0 0 (insn_output Sample.blr)] Sample.after_msr1
  = Some (Sample.after_msr1,
          [Stderr ("Failed to find register TTBR0_EL1 on cpu 0." +:+ nl);
           Stderr ("Failed to find register TTBR0_EL1 on cpu 0." +:+ nl)]).
Proof.
  apply (C2_lookup_failure_drops_instructions 0 Sample.after_msr1
           {| insn_rec := new_record 0 (insn_output Sample.msr1); index := 0 |}
           [(Sample.engine_no_ttbr0, insn_output Sample.bl);
            (Sample.engine_no_ttbr0, insn_output Sample.blr)]).
  - reflexivity.
  - vm_compute. reflexivity.
  - repeat constructor.
Defined.

(** ** Direct bl *)

(** C3: the callback of a bl prints its record, with a newline and no
    register, and leaves it in [insn_rec]; [plugin_exit] run next prints the
    stored text once more, with a second newline. *)
Theorem C3_bl_record_printed_again_at_exit
    (w : Engine) (c : nat) (u : string) (g : Globals) (cpu : CPU) :
  get_cpu c g = Some cpu ->
  goes_on w cpu ->
  has_insn (new_record c u) "blr" = false ->
  has_insn (new_record c u) "bl" = true ->
  exists g1,
    vcpu_insn_exec_cb w c u g
    = Some (g1, previous_out w c cpu ++ [Outs (new_record c u +:+ nl)]) /\
    get_cpu c g1 = Some {| insn_rec := new_record c u +:+ nl; index := index cpu |} /\
    Outs ((new_record c u +:+ nl) +:+ nl) ∈ (plugin_exit g1).2.
Proof.
  intros Hcpu Hgo Hblr Hbl.
  exists (set_insn_rec c cpu (new_record c u +:+ nl) g). split; [|split].
  - rewrite (exec_cb_goes_on w c u g cpu Hcpu Hgo). cbv zeta.
    rewrite Hblr, Hbl. reflexivity.
  - apply get_cpu_set_insn_rec, Hcpu.
  - unfold plugin_exit. rewrite plugin_exit_loop_spec. cbn [snd].
    apply (list_elem_of_fmap_2'
             (fun c => Outs (insn_rec c +:+ nl))
             _ {| insn_rec := new_record c u +:+ nl; index := index cpu |});
      [|reflexivity].
    eapply list_elem_of_lookup_2.
    apply (get_cpu_set_insn_rec c cpu (new_record c u +:+ nl) g Hcpu).
Qed.

(** An instance: one bl on cpu 0, then the exit of the plugin. *)
Lemma C3_bl_sample :
  exists g1,
    vcpu_insn_exec_cb Sample.engine 0 (insn_output Sample.bl) Sample.one_cpu
    = Some (g1, previous_out Sample.engine 0 {| insn_rec := ""; index := 0 |}
                ++ [Outs (new_record 0 (insn_output Sample.bl) +:+ nl)]) /\
    get_cpu 0 g1
    = Some {| insn_rec := new_record 0 (insn_output Sample.bl) +:+ nl; index := 0 |} /\
    Outs ((new_record 0 (insn_output Sample.bl) +:+ nl) +:+ nl) ∈ (plugin_exit g1).2.
Proof.
  apply (C3_bl_record_printed_again_at_exit
           Sample.engine 0 (insn_output Sample.bl) Sample.one_cpu
           {| insn_rec := ""; index := 0 |}).
  - reflexivity.
  - intros H. vm_compute in H. discriminate H.
  - vm_compute. reflexivity.
  - vm_compute. reflexivity.
Defined.

(** ** The exit of the plugin *)

(** C5: [plugin_exit] tests the pointer [insn_rec->str], which is never
    NULL, so it prints one line for every slot, the empty records included:
    a cpu that recorded nothing gets a line holding only the newline. *)
Theorem C5_plugin_exit_prints_every_slot (g : Globals) :
  (plugin_exit g).2 = (fun cpu => Outs (insn_rec cpu +:+ nl)) <$> cpus g
  /\ (plugin_exit Sample.one_cpu).2 = [Outs nl].
Proof.
  split; [|reflexivity].
  unfold plugin_exit. rewrite plugin_exit_loop_spec. reflexivity.
Qed.

(** ** Register-indirect blr *)

(** C4: for a blr whose operand register is found, the callback prints the
    record in the same invocation, and its register segment names the last
    whitespace-delimited token of the disassembly.  The disassembly is
    taken without the glob characters '*' and '?', and the registers of the
    cpu with plain names (not empty, no white space). *)
Theorem C4_blr_names_last_token
    (w : Engine) (c : nat) (g : Globals) (cpu : CPU) (insn : qemu_plugin_insn)
    (blr_reg : string) (desc : qemu_plugin_reg_descriptor) :
  get_cpu c g = Some cpu ->
  goes_on w cpu ->
  has_insn (qemu_plugin_insn_disas insn) "blr" = true ->
  glob_free (qemu_plugin_insn_disas insn) = true ->
  (forall l d, qemu_plugin_get_registers w (index cpu) = Some l -> d ∈ l ->
               plain_name (name d) = true) ->
  blr_reg_of (new_record c (insn_output insn)) = Some blr_reg ->
  get_reg_desc (qemu_plugin_get_registers w (index cpu)) blr_reg = Some desc ->
  exists g',
    last_token (qemu_plugin_insn_disas insn) = Some (name desc) /\
    vcpu_insn_exec_cb w c (insn_output insn) g
    = Some (g', previous_out w c cpu
                ++ [Outs (new_record c (insn_output insn)
                          +:+ ", " +:+ name desc +:+ " -> 0x"
                          +:+ hex_bytes (reverse (qemu_plugin_read_register w c (handle desc)))
                          +:+ nl)]) /\
    get_cpu c g' = Some {| insn_rec := read_register w c desc (new_record c (insn_output insn));
                           index := index cpu |}.
Proof.
  intros Hcpu Hgo Hblr Hfree Hplain Hreg Hdesc.
  rewrite blr_reg_of_new_record, after_last_space_insn_output in Hreg.
  injection Hreg as <-.
  assert (Hname : name desc = after_last_space (qemu_plugin_insn_disas insn)).
  { apply (get_reg_desc_literal _ _ _ (string_forallb_after_last_space _ _ Hfree) Hdesc). }
  assert (Hrec : has_insn (new_record c (insn_output insn)) "blr" = true).
  { destruct (new_record_insn_output c insn) as [p ->]. apply has_insn_app_r, Hblr. }
  exists (set_insn_rec c cpu (read_register w c desc (new_record c (insn_output insn))) g).
  split; [|split].
  - rewrite Hname. apply last_token_after_last_space. rewrite <- Hname.
    destruct (get_reg_desc_Some _ _ _ Hdesc) as (l & Hl & Hin & _).
    apply (Hplain l desc Hl Hin).
  - rewrite (exec_cb_goes_on w c (insn_output insn) g cpu Hcpu Hgo). cbv zeta.
    rewrite Hrec, after_last_space_insn_output, Hdesc, read_register_spec. reflexivity.
  - apply get_cpu_set_insn_rec, Hcpu.
Qed.

(** An instance: [blr x3] on cpu 0, where x3 holds 0x4005c0. *)
Lemma C4_blr_sample :
  exists g',
    last_token "blr x3" = Some "x3" /\
    vcpu_insn_exec_cb Sample.engine 0 (insn_output Sample.blr) Sample.one_cpu
    = Some (g', previous_out Sample.engine 0 {| insn_rec := ""; index := 0 |}
                ++ [Outs (new_record 0 (insn_output Sample.blr)
                          +:+ ", " +:+ "x3" +:+ " -> 0x"
                          +:+ hex_bytes (reverse (qemu_plugin_read_register Sample.engine 0 3))
                          +:+ nl)]) /\
    get_cpu 0 g'
    = Some {| insn_rec := read_register Sample.engine 0 Sample.x3
                            (new_record 0 (insn_output Sample.blr));
              index := 0 |}.
Proof.
  apply (C4_blr_names_last_token Sample.engine 0 Sample.one_cpu
           {| insn_rec := ""; index := 0 |} Sample.blr "x3" Sample.x3).
  - reflexivity.
  - intros H. vm_compute in H. discriminate H.
  - vm_compute. reflexivity.
  - vm_compute. reflexivity.
  - intros l d [= <-] Hd.
    apply elem_of_cons in Hd as [->|Hd]; [reflexivity|].
    apply elem_of_cons in Hd as [->|Hd]; [reflexivity|].
    apply elem_of_nil in Hd. destruct Hd.
  - vm_compute. reflexivity.
  - vm_compute. reflexivity.
Defined.

(** ** The register segment *)

(** C6, as stated, does not hold: a read of x3 that returns the bytes
    00 00 00 00 00 40 05 c0 is printed from the last byte to the first, with
    every zero kept; the text is not ", x3 -> 0x40005c0".  Nor is it when
    the same bytes come lowest first. *)
Lemma C6_zero_bytes_are_printed :
  read_register Sample.engine_msb_first 0 Sample.x3 "" = ", x3 -> 0xc005400000000000" +:+ nl
  /\ read_register Sample.engine 0 Sample.x3 "" = ", x3 -> 0x00000000004005c0" +:+ nl
  /\ ", x3 -> 0xc005400000000000" +:+ nl <> ", x3 -> 0x40005c0" +:+ nl
  /\ ", x3 -> 0x00000000004005c0" +:+ nl <> ", x3 -> 0x40005c0" +:+ nl.
Proof. repeat split; try (vm_compute; reflexivity); vm_compute; discriminate. Qed.

(** C6, amended: [read_register] appends ", <name> -> 0x", then every byte
    of the read as two hexadecimal digits, from the last byte of the buffer
    to the first, then a newline; no digit is trimmed, so a read of n bytes
    gives 2n digits. *)
Theorem C6_read_register_format
    (w : Engine) (cpu_index : nat) (desc : qemu_plugin_reg_descriptor) (record : string) :
  let bytes := qemu_plugin_read_register w cpu_index (handle desc) in
  read_register w cpu_index desc record
  = record +:+ ", " +:+ name desc +:+ " -> 0x" +:+ hex_bytes (reverse bytes) +:+ nl
  /\ String.length (hex_bytes (reverse bytes)) = 2 * length bytes
  /\ read_register Sample.engine 0 Sample.x3 "" = ", x3 -> 0x00000000004005c0" +:+ nl.
Proof.
  intros bytes. split; [apply read_register_spec|]. split; [|reflexivity].
  rewrite hex_bytes_length, length_reverse. reflexivity.
Qed.

(** ** The scanner of translation blocks *)

(** C7: for the instruction at position [i] of a block, [vcpu_tb_trans]
    registers the execution callback exactly when the disassembly starts
    with "bl" or with "msr ttbr0": once, with register reads declared and
    with the address, the four bytes of the encoding and the disassembly as
    user data.  For any other instruction it registers nothing. *)
Theorem C7_registration_iff_interesting
    (tb : list qemu_plugin_insn) (i : nat) (insn : qemu_plugin_insn) :
  tb !! i = Some insn ->
  let disas := qemu_plugin_insn_disas insn in
  let registration :=
    {| reg_insn := i; reg_flags := QEMU_PLUGIN_CB_R_REGS;
       reg_udata := "0x" +:+ Fmt.hex (qemu_plugin_insn_vaddr insn) +:+ ", 0x"
                    +:+ Fmt.hex (load_u32 (qemu_plugin_insn_data insn)) +:+ ", " +:+ disas |} in
  ((exists r, r ∈ vcpu_tb_trans tb /\ reg_insn r = i)
   <-> (GLib.g_str_has_prefix disas "bl" = true
        \/ GLib.g_str_has_prefix disas "msr ttbr0" = true))
  /\ filter (fun r => reg_insn r = i) (vcpu_tb_trans tb)
     = if GLib.g_str_has_prefix disas "bl" || GLib.g_str_has_prefix disas "msr ttbr0"
       then [registration] else [].
Proof.
  intros Hi disas registration.
  pose proof (vcpu_tb_trans_loop_filter 0 tb i insn Hi) as Hf.
  cbn [Nat.add] in Hf. fold (vcpu_tb_trans tb) in Hf.
  unfold interesting in Hf. fold disas in Hf.
  split; [|exact Hf].
  rewrite <- orb_true_iff. split.
  - intros (r & Hr & Hri).
    assert (r ∈ filter (fun r => reg_insn r = i) (vcpu_tb_trans tb)) as Hin
        by (apply list_elem_of_filter; split; assumption).
    rewrite Hf in Hin. destruct (_ || _); [reflexivity|].
    apply elem_of_nil in Hin. destruct Hin.
  - intros Hint. rewrite Hint in Hf. exists registration.
    assert (registration ∈ filter (fun r => reg_insn r = i) (vcpu_tb_trans tb)) as Hin
        by (rewrite Hf; left).
    apply list_elem_of_filter in Hin as [Hri Hin]. split; assumption.
Qed.

(** An instance: in the block bl, nop, blr, msr the instruction at position
    1 is the nop, and position 3 the msr. *)
Lemma C7_registration_sample :
  ((exists r, r ∈ vcpu_tb_trans [Sample.bl; Sample.nop; Sample.blr; Sample.msr1]
              /\ reg_insn r = 3)
   <-> (GLib.g_str_has_prefix "msr ttbr0_el1, x0" "bl" = true
        \/ GLib.g_str_has_prefix "msr ttbr0_el1, x0" "msr ttbr0" = true))
  /\ filter (fun r => reg_insn r = 3)
       (vcpu_tb_trans [Sample.bl; Sample.nop; Sample.blr; Sample.msr1])
     = if GLib.g_str_has_prefix "msr ttbr0_el1, x0" "bl"
          || GLib.g_str_has_prefix "msr ttbr0_el1, x0" "msr ttbr0"
       then [ {| reg_insn := 3; reg_flags := QEMU_PLUGIN_CB_R_REGS;
                 reg_udata := "0x" +:+ Fmt.hex 0x1000 +:+ ", 0x"
                              +:+ Fmt.hex (load_u32 [x00; x20; x18; xd5]) +:+ ", "
                              +:+ "msr ttbr0_el1, x0" |} ]
       else [].
Proof.
  apply (C7_registration_iff_interesting
           [Sample.bl; Sample.nop; Sample.blr; Sample.msr1] 3 Sample.msr1).
  reflexivity.
Defined.

(** ** Installation of the plugin *)

(** C8: [qemu_plugin_install] fails, returning -1 with no callback
    registered, exactly when some option has a key other than [binary] or a
    value of [binary] that does not parse as a boolean.  Otherwise it
    returns 0 with the three callbacks registered; every [binary] option
    costs one diagnostic line and sets [fmt_bin], which no callback reads. *)
Theorem C8_install_fails_iff_bad_option
    (qemu_plugin_bool_parse : option string -> option string -> option bool)
    (info : qemu_info_t) (argv : list string) :
  let r := qemu_plugin_install qemu_plugin_bool_parse info argv in
  (ret r = (-1)%Z <-> Exists (bad_option qemu_plugin_bool_parse) argv)
  /\ (ret r = (-1)%Z -> registered r = [])
  /\ (ret r <> (-1)%Z ->
      ret r = 0%Z
      /\ registered r = [Vcpu_init_cb; Vcpu_tb_trans_cb; Atexit_cb]
      /\ cpus (globals r) = cpus initial_globals
      /\ diagnostics r
         = replicate (length argv) (Stderr ("binary format option not yet supported" +:+ nl)))
  /\ (forall cb g b,
        callback cb (with_fmt_bin b g)
        = (fun res => (with_fmt_bin b res.1, res.2)) <$> callback cb g).
Proof.
  intros r. subst r. unfold qemu_plugin_install.
  destruct (parse_options_spec qemu_plugin_bool_parse argv initial_globals) as (Hok & Hcpus & Hevs).
  rewrite <- forallb_accepted_false, <- Hok.
  destruct (parse_options qemu_plugin_bool_parse argv initial_globals) as [[ok g] evs].
  cbn [fst snd] in *. destruct ok; cbn [ret registered globals diagnostics].
  - split; [split; discriminate|]. split; [discriminate|].
    split; [|apply callback_fmt_bin].
    intros _. rewrite Hcpus, (Hevs eq_refl). repeat split.
  - split; [split; reflexivity|]. split; [reflexivity|].
    split; [|apply callback_fmt_bin].
    intros H. destruct H. reflexivity.
Qed.

(** Two instances: [binary=on] alone is accepted, and the diagnostic is the
    only trace of it; [binary] without a value makes the installation fail. *)
Lemma C8_install_sample :
  (let r := qemu_plugin_install Sample.bool_parse Sample.info ["binary=on"] in
   ret r = 0%Z
   /\ registered r = [Vcpu_init_cb; Vcpu_tb_trans_cb; Atexit_cb]
   /\ cpus (globals r) = cpus initial_globals
   /\ diagnostics r
      = replicate 1 (Stderr ("binary format option not yet supported" +:+ nl)))
  /\ (let r := qemu_plugin_install Sample.bool_parse Sample.info ["binary=on"; "binary"] in
      ret r = (-1)%Z /\ registered r = []).
Proof.
  split.
  - apply (C8_install_fails_iff_bad_option Sample.bool_parse Sample.info ["binary=on"]).
    vm_compute. discriminate.
  - pose proof (C8_install_fails_iff_bad_option
                  Sample.bool_parse Sample.info ["binary=on"; "binary"]) as (Hiff & Hreg & _).
    assert (Hbad : Exists (bad_option Sample.bool_parse) ["binary=on"; "binary"]).
    { right. left. right. reflexivity. }
    apply Hiff in Hbad. split; [exact Hbad|exact (Hreg Hbad)].
Defined.

(** ** The index stored in a slot *)

(** C10: a cpu coming online with an index [i] at or past the end of the
    array creates the slots from the old end up to [i], and all of them get
    [i] as their index.  So the slots carry their positions only if the cpus
    first came online in the order of their indices with none left out (and
    then, when each came online once, the order was 0, 1, 2, ...).  The
    callback enumerates the registers of the stored index: engines that
    agree on that cpu give the same result, whatever they list for the cpu
    the callback runs on; and it is in the list of the stored index that it
    looks up TTBR0_EL1 for a pending msr and the register named by a blr,
    the result of that lookup deciding what it prints and stores. *)
Theorem C10_slots_tagged_with_new_index :
  (forall g i,
      num_cpus g <= i ->
      num_cpus (vcpu_init i g) = i + 1
      /\ (forall k, k < num_cpus g -> cpus (vcpu_init i g) !! k = cpus g !! k)
      /\ (forall k, num_cpus g <= k <= i ->
                    cpus (vcpu_init i g) !! k = Some {| insn_rec := ""; index := i |}))
  /\ (forall l,
        tags_are_positions (online l) ->
        in_index_order l
        /\ (forall k, k < num_cpus (online l) -> k ∈ l)
        /\ (NoDup l -> l = seq 0 (length l)))
  /\ (forall w w' c u g cpu,
        get_cpu c g = Some cpu ->
        qemu_plugin_get_registers w (index cpu) = qemu_plugin_get_registers w' (index cpu) ->
        (forall h, qemu_plugin_read_register w c h = qemu_plugin_read_register w' c h) ->
        vcpu_insn_exec_cb w c u g = vcpu_insn_exec_cb w' c u g)
  /\ (forall w c u g cpu,
        get_cpu c g = Some cpu ->
        (has_insn (insn_rec cpu) "msr" = true ->
         match get_reg_desc (qemu_plugin_get_registers w (index cpu)) "TTBR0_EL1" with
         | None =>
             vcpu_insn_exec_cb w c u g
             = Some (g, [Stderr (not_found_msg "TTBR0_EL1" (index cpu))])
         | Some desc =>
             exists g' out,
               vcpu_insn_exec_cb w c u g
               = Some (g', Outs (read_register w c desc (insn_rec cpu)) :: out)
         end)
        /\ (has_insn (insn_rec cpu) "msr" = false ->
            has_insn (new_record c u) "blr" = true ->
            match get_reg_desc (qemu_plugin_get_registers w (index cpu))
                    (after_last_space u) with
            | None =>
                vcpu_insn_exec_cb w c u g
                = Some (set_insn_rec c cpu (new_record c u) g,
                        [Stderr (not_found_msg (after_last_space u) (index cpu))])
            | Some desc =>
                vcpu_insn_exec_cb w c u g
                = Some (set_insn_rec c cpu (read_register w c desc (new_record c u)) g,
                        [Outs (read_register w c desc (new_record c u))])
            end)).
Proof.
  split; [|split; [|split]].
  - intros g i Hi. split; [rewrite vcpu_init_num_cpus; lia|].
    rewrite vcpu_init_cpus. unfold num_cpus in *. split; intros k Hk.
    + apply lookup_app_l, Hk.
    + rewrite lookup_app_r by lia. apply lookup_replicate_2. lia.
  - intros l Htags. split; [apply tags_in_index_order, Htags|]. split.
    + intros k Hk. apply (seen_below_num_cpus l Htags), Hk.
    + intros Hnd. apply tags_NoDup_seq; assumption.
  - apply exec_cb_registers_of_tag.
  - intros w c u g cpu Hcpu. split.
    + intros Hmsr.
      destruct (get_reg_desc (qemu_plugin_get_registers w (index cpu)) "TTBR0_EL1")
        as [desc|] eqn:Hd; [|apply exec_cb_returns_early; assumption].
      assert (Hgo : goes_on w cpu) by (intros _; rewrite Hd; eexists; reflexivity).
      rewrite (exec_cb_goes_on w c u g cpu Hcpu Hgo). cbv zeta.
      unfold previous_out. rewrite Hmsr, Hd. cbn [app].
      destruct (has_insn (new_record c u) "blr").
      * destruct (get_reg_desc _ (after_last_space u)); eexists _, _; reflexivity.
      * destruct (has_insn (new_record c u) "bl"); eexists _, _; reflexivity.
    + intros Hmsr Hblr.
      assert (Hgo : goes_on w cpu) by (intros H; congruence).
      rewrite (exec_cb_goes_on w c u g cpu Hcpu Hgo). cbv zeta.
      unfold previous_out. rewrite Hmsr, Hblr. cbn [app].
      destruct (get_reg_desc _ (after_last_space u)); reflexivity.
Qed.

(** Instances: cpu 2 coming online first tags slot 1 with 2; the order
    0, 1, 2 is the one that keeps positions and indices equal; and on the
    array left by cpu 1 coming online first, the callback of cpu 0 reads the
    register list of cpu 1: it finds x3 there for [blr x3], on an engine that
    lists no register for cpu 0. *)
Lemma C10_slots_sample :
  cpus (vcpu_init 2 initial_globals) !! 1 = Some {| insn_rec := ""; index := 2 |}
  /\ in_index_order [0; 1; 2]
  /\ [0; 1; 2] = seq 0 3
  /\ vcpu_insn_exec_cb Sample.engine_cpu1_only 0 (insn_output Sample.blr) (online [1])
     = vcpu_insn_exec_cb Sample.engine 0 (insn_output Sample.blr) (online [1])
  /\ qemu_plugin_get_registers Sample.engine_cpu1_only 0 = Some []
  /\ vcpu_insn_exec_cb Sample.engine_cpu1_only 0 (insn_output Sample.blr) (online [1])
     = Some (set_insn_rec 0 {| insn_rec := ""; index := 1 |}
               (read_register Sample.engine_cpu1_only 0 Sample.x3
                  (new_record 0 (insn_output Sample.blr)))
               (online [1]),
             [Outs (read_register Sample.engine_cpu1_only 0 Sample.x3
                      (new_record 0 (insn_output Sample.blr)))]).
Proof.
  pose proof C10_slots_tagged_with_new_index as (Hgrow & Horder & Hregs & Hlookup).
  assert (Htags : tags_are_positions (online [0; 1; 2])).
  { intros k cpu Hk. destruct k as [|[|[|k]]]; cbn in Hk; try discriminate Hk;
      injection Hk as <-; reflexivity. }
  split; [|split; [|split; [|split; [|split]]]].
  - apply (Hgrow initial_globals 2); cbn; lia.
  - apply (Horder [0; 1; 2] Htags).
  - apply (Horder [0; 1; 2] Htags). apply (NoDup_seq 0 3).
  - apply (Hregs Sample.engine_cpu1_only Sample.engine 0 (insn_output Sample.blr)
             (online [1]) {| insn_rec := ""; index := 1 |}); reflexivity.
  - reflexivity.
  - destruct (Hlookup Sample.engine_cpu1_only 0 (insn_output Sample.blr) (online [1])
                {| insn_rec := ""; index := 1 |} eq_refl) as [_ Hblr].
    exact (Hblr eq_refl eq_refl).
Defined.

(* ===================================================================== *)
(** * Further properties *)
(* ===================================================================== *)

(** ** The register lookup *)

Lemma g_pattern_match_refl pattern :
  glob_free pattern = true -> GLib.g_pattern_match pattern pattern = true.
Proof.
  unfold glob_free. induction pattern as [|p pattern IH]; intros Hfree; [reflexivity|].
  cbn [string_forallb] in Hfree.
  apply andb_prop in Hfree as [Hp Hfree]. apply andb_prop in Hp as [Hstar Hq].
  apply negb_true_iff in Hstar.
  cbn [GLib.g_pattern_match]. rewrite Hstar, Ascii.eqb_refl, orb_true_r.
  apply IH, Hfree.
Qed.

Lemma get_reg_desc_loop_first l reg_pat d :
  get_reg_desc_loop l reg_pat = Some d <->
  exists l1 l2,
    l = l1 ++ d :: l2
    /\ GLib.g_pattern_match reg_pat (name d) = true
    /\ Forall (fun d' => GLib.g_pattern_match reg_pat (name d') = false) l1.
Proof.
  induction l as [|d0 l IH]; cbn [get_reg_desc_loop].
  - split; [discriminate|]. intros (l1 & l2 & H & _). destruct l1; discriminate H.
  - destruct (GLib.g_pattern_match reg_pat (name d0)) eqn:E.
    + split.
      * intros [= <-]. exists [], l. repeat split; [exact E|constructor].
      * intros (l1 & l2 & H & Hm & Hall). destruct l1 as [|d1 l1].
        -- injection H as -> _. reflexivity.
        -- injection H as -> _. apply Forall_cons in Hall as [Hd _]. congruence.
    + rewrite IH. split.
      * intros (l1 & l2 & -> & Hm & Hall). exists (d0 :: l1), l2.
        repeat split; [exact Hm|constructor; assumption].
      * intros (l1 & l2 & H & Hm & Hall). destruct l1 as [|d1 l1].
        -- injection H as -> _. congruence.
        -- injection H as -> ->. apply Forall_cons in Hall as [_ Hall].
           exists l1, l2. repeat split; assumption.
Qed.

Lemma get_reg_desc_loop_None l reg_pat :
  get_reg_desc_loop l reg_pat = None <->
  Forall (fun d => GLib.g_pattern_match reg_pat (name d) = false) l.
Proof.
  induction l as [|d0 l IH]; cbn [get_reg_desc_loop].
  - split; [constructor|reflexivity].
  - rewrite Forall_cons. destruct (GLib.g_pattern_match reg_pat (name d0)).
    + split; [discriminate|intros [H _]; discriminate H].
    + rewrite IH. tauto.
Qed.

(** X1: [get_reg_desc] returns the first descriptor of the list whose name
    matches the pattern: no descriptor before it matches.  It returns NULL
    exactly when the list is NULL or holds no match (the empty list
    included). *)
Theorem get_reg_desc_first_match
    (reg_list : option (list qemu_plugin_reg_descriptor)) (reg_pat : string) :
  (forall d,
      get_reg_desc reg_list reg_pat = Some d <->
      exists l1 l2,
        reg_list = Some (l1 ++ d :: l2)
        /\ GLib.g_pattern_match reg_pat (name d) = true
        /\ Forall (fun d' => GLib.g_pattern_match reg_pat (name d') = false) l1)
  /\ (get_reg_desc reg_list reg_pat = None <->
      reg_list = None
      \/ exists l, reg_list = Some l
                   /\ Forall (fun d => GLib.g_pattern_match reg_pat (name d) = false) l).
Proof.
  destruct reg_list as [l|]; cbn [get_reg_desc]; split.
  - intros d. rewrite get_reg_desc_loop_first. split.
    + intros (l1 & l2 & -> & H). exists l1, l2. split; [reflexivity|exact H].
    + intros (l1 & l2 & [= ->] & H). exists l1, l2. split; [reflexivity|exact H].
  - rewrite get_reg_desc_loop_None. split.
    + intros H. right. exists l. split; [reflexivity|exact H].
    + intros [[=]|(l' & [= <-] & H)]. exact H.
  - intros d. split; [discriminate|]. intros (l1 & l2 & [=] & _).
  - split; [left; reflexivity|reflexivity].
Qed.

(** X2: a pattern without '*' and '?' finds the register of exactly that
    name, letter case included, and fails exactly when no listed register
    has it.  This is the lookup of TTBR0_EL1. *)
Theorem get_reg_desc_exact_name
    (reg_list : option (list qemu_plugin_reg_descriptor)) (reg_pat : string) :
  glob_free reg_pat = true ->
  (forall d, get_reg_desc reg_list reg_pat = Some d -> name d = reg_pat)
  /\ (get_reg_desc reg_list reg_pat = None <->
      forall l d, reg_list = Some l -> d ∈ l -> name d <> reg_pat).
Proof.
  intros Hfree. split; [intros d; apply get_reg_desc_literal, Hfree|].
  destruct reg_list as [l|]; cbn [get_reg_desc].
  - rewrite get_reg_desc_loop_None, Forall_forall. split.
    + intros H l' d [= <-] Hd Hname. specialize (H d Hd).
      rewrite Hname, g_pattern_match_refl in H by exact Hfree. discriminate H.
    + intros H d Hd. destruct (GLib.g_pattern_match reg_pat (name d)) eqn:E; [|reflexivity].
      destruct (H l d eq_refl Hd). apply g_pattern_match_literal; assumption.
  - split; [intros _ l d [=]|reflexivity].
Qed.

(** Instances: TTBR0_EL1 is found in the sample list, and not in a list that
    spells it in lower case. *)
Lemma get_reg_desc_exact_name_sample :
  (forall d, get_reg_desc (Some [Sample.x3; Sample.ttbr0]) "TTBR0_EL1" = Some d ->
             name d = "TTBR0_EL1")
  /\ get_reg_desc (Some [ {| handle := 40; name := "ttbr0_el1" |} ]) "TTBR0_EL1" = None.
Proof.
  split.
  - apply (get_reg_desc_exact_name (Some [Sample.x3; Sample.ttbr0]) "TTBR0_EL1"). reflexivity.
  - apply (get_reg_desc_exact_name (Some [ {| handle := 40; name := "ttbr0_el1" |} ])
             "TTBR0_EL1"); [reflexivity|].
    intros l d [= <-] Hd. apply list_elem_of_singleton in Hd as ->. discriminate.
Defined.

(** ** What an instruction callback touches *)

(** The result of [vcpu_insn_exec_cb] on a cpu that has a slot: the globals
    are left as they were or get one new record in that slot, and what it
    prints is one diagnostic, or the line of the previous instruction (if
    any) followed by at most one line or diagnostic for the current one. *)
Lemma exec_cb_shape w c u g cpu :
  get_cpu c g = Some cpu ->
  exists rec out,
    (vcpu_insn_exec_cb w c u g = Some (g, out) \/
     vcpu_insn_exec_cb w c u g = Some (set_insn_rec c cpu rec g, out))
    /\ (out = [Stderr (not_found_msg "TTBR0_EL1" (index cpu))]
        \/ exists cur,
            out = previous_out w c cpu ++ cur
            /\ (cur = []
                \/ cur = [Stderr (not_found_msg (after_last_space u) (index cpu))]
                \/ cur = [Outs (new_record c u +:+ nl)]
                \/ exists d, cur = [Outs (read_register w c d (new_record c u))])).
Proof.
  intros Hcpu.
  destruct (has_insn (insn_rec cpu) "msr") eqn:Hmsr;
    [destruct (get_reg_desc (qemu_plugin_get_registers w (index cpu)) "TTBR0_EL1")
       as [d0|] eqn:Hd0|].
  2:{ exists "", [Stderr (not_found_msg "TTBR0_EL1" (index cpu))].
      rewrite (exec_cb_returns_early w c u g cpu Hcpu Hmsr Hd0). auto. }
  all: assert (Hgo : goes_on w cpu)
         by (intros Hm; first [rewrite Hd0; eexists; reflexivity | congruence]);
       rewrite (exec_cb_goes_on w c u g cpu Hcpu Hgo); cbv zeta;
       destruct (has_insn (new_record c u) "blr");
       [destruct (get_reg_desc _ (after_last_space u)) as [d|]
       |destruct (has_insn (new_record c u) "bl")].
  all: eexists _, _; (split; [right; reflexivity|]); right.
  all: first
         [ eexists; split; [reflexivity|]; eauto 6
         | exists []; split; [symmetry; apply app_nil_r|]; left; reflexivity ].
Qed.

Lemma set_insn_rec_frame c cpu rec g :
  get_cpu c g = Some cpu ->
  num_cpus (set_insn_rec c cpu rec g) = num_cpus g
  /\ fmt_bin (set_insn_rec c cpu rec g) = fmt_bin g
  /\ index <$> cpus (set_insn_rec c cpu rec g) = index <$> cpus g
  /\ forall k, k <> c -> cpus (set_insn_rec c cpu rec g) !! k = cpus g !! k.
Proof.
  intros Hcpu. unfold num_cpus, set_insn_rec, get_cpu in *. cbn [cpus fmt_bin].
  split; [apply length_insert|]. split; [reflexivity|]. split.
  - rewrite list_fmap_insert. apply list_insert_id.
    rewrite list_lookup_fmap, Hcpu. reflexivity.
  - intros k Hk. apply list_lookup_insert_ne. congruence.
Qed.

(** X3: an instruction callback on cpu [c] keeps the number of slots,
    [fmt_bin], the index stored in every slot and the records of all other
    cpus: its only write is the record of slot [c]. *)
Theorem exec_cb_frame
    (w : Engine) (c : nat) (u : string) (g g' : Globals) (out : list Event) :
  vcpu_insn_exec_cb w c u g = Some (g', out) ->
  num_cpus g' = num_cpus g
  /\ fmt_bin g' = fmt_bin g
  /\ index <$> cpus g' = index <$> cpus g
  /\ forall k, k <> c -> cpus g' !! k = cpus g !! k.
Proof.
  intros H. destruct (get_cpu c g) as [cpu|] eqn:Hcpu.
  - destruct (exec_cb_shape w c u g cpu Hcpu) as (rec & out' & [E|E] & _);
      rewrite E in H; injection H as <- _.
    + repeat split.
    + apply set_insn_rec_frame, Hcpu.
  - unfold vcpu_insn_exec_cb in H. rewrite Hcpu in H. discriminate H.
Qed.

(** Instance: the callback of a bl on the only cpu keeps the one slot. *)
Lemma exec_cb_frame_sample :
  num_cpus (set_insn_rec 0 {| insn_rec := ""; index := 0 |}
              (new_record 0 (insn_output Sample.bl) +:+ nl) Sample.one_cpu)
  = num_cpus Sample.one_cpu.
Proof.
  apply (exec_cb_frame Sample.engine 0 (insn_output Sample.bl) Sample.one_cpu _
           [Outs (new_record 0 (insn_output Sample.bl) +:+ nl)]).
  vm_compute. reflexivity.
Defined.

(** X4: what the callback on cpu [c] prints, and the record it leaves in
    slot [c], depend on the globals through slot [c] alone. *)
Theorem exec_cb_reads_own_slot
    (w : Engine) (c : nat) (u : string) (g1 g2 : Globals) :
  get_cpu c g1 = get_cpu c g2 ->
  (fun r => (get_cpu c r.1, r.2)) <$> vcpu_insn_exec_cb w c u g1
  = (fun r => (get_cpu c r.1, r.2)) <$> vcpu_insn_exec_cb w c u g2.
Proof.
  intros Hslot. unfold vcpu_insn_exec_cb. rewrite <- Hslot.
  destruct (get_cpu c g1) as [cpu|] eqn:Hcpu; [|reflexivity]. cbn [mbind option_bind].
  symmetry in Hslot.
  assert (Hset : forall rec, get_cpu c (set_insn_rec c cpu rec g1)
                             = get_cpu c (set_insn_rec c cpu rec g2))
    by (intros rec; rewrite !get_cpu_set_insn_rec by assumption; reflexivity).
  destruct (has_insn (insn_rec cpu) "msr");
    [destruct (get_reg_desc _ "TTBR0_EL1")|];
    try (cbn; rewrite Hcpu, Hslot; reflexivity);
    (destruct (has_insn (new_record c u) "blr");
     [destruct (blr_reg_of (new_record c u)) as [reg|]; [|reflexivity];
      cbn [mbind option_bind]; destruct (get_reg_desc _ reg)
     |destruct (has_insn (new_record c u) "bl")]);
    cbn [fmap option_fmap option_map fst snd]; rewrite Hset; reflexivity.
Qed.

(** Instance: a second cpu and another [fmt_bin] do not change what the
    callback of cpu 0 prints and stores. *)
Lemma exec_cb_reads_own_slot_sample :
  (fun r => (get_cpu 0 r.1, r.2))
    <$> vcpu_insn_exec_cb Sample.engine 0 (insn_output Sample.blr) Sample.one_cpu
  = (fun r => (get_cpu 0 r.1, r.2))
      <$> vcpu_insn_exec_cb Sample.engine 0 (insn_output Sample.blr)
            (vcpu_init 1 (with_fmt_bin true Sample.one_cpu)).
Proof.
  apply (exec_cb_reads_own_slot Sample.engine 0 (insn_output Sample.blr)). reflexivity.
Defined.

(** X5: the callback aborts exactly when its cpu has no slot, that is when
    the assertion of [get_cpu] fails; the pointer arithmetic on the result
    of [g_strrstr] never does, as the record always holds a space. *)
Theorem exec_cb_aborts_iff_no_slot (w : Engine) (c : nat) (u : string) (g : Globals) :
  vcpu_insn_exec_cb w c u g = None <-> num_cpus g <= c.
Proof.
  unfold num_cpus. rewrite <- lookup_ge_None. fold (get_cpu c g).
  destruct (get_cpu c g) as [cpu|] eqn:Hcpu.
  - destruct (exec_cb_shape w c u g cpu Hcpu) as (rec & out & [E|E] & _);
      rewrite E; split; discriminate.
  - unfold vcpu_insn_exec_cb. rewrite Hcpu. split; reflexivity.
Qed.

(** X6: a callback makes at most two writes, counting each call of
    [qemu_plugin_outs] and of [fprintf] as one, and at most one of them is a
    diagnostic on the error stream.  (A single write can hold more than one
    line, when the stored record it completes holds a newline already.) *)
Theorem exec_cb_prints_at_most_two
    (w : Engine) (c : nat) (u : string) (g g' : Globals) (out : list Event) :
  vcpu_insn_exec_cb w c u g = Some (g', out) ->
  length out <= 2 /\ length (filter (fun e => is_diagnostic e = true) out) <= 1.
Proof.
  intros H. destruct (get_cpu c g) as [cpu|] eqn:Hcpu.
  2:{ unfold vcpu_insn_exec_cb in H. rewrite Hcpu in H. discriminate H. }
  assert (Hprev : length (previous_out w c cpu) <= 1
                  /\ filter (fun e => is_diagnostic e = true) (previous_out w c cpu) = []).
  { unfold previous_out. destruct (has_insn _ _); [|split; [cbn; lia|reflexivity]].
    destruct (get_reg_desc _ _); split; cbn; try lia; reflexivity. }
  destruct Hprev as [Hlen Hnodiag].
  destruct (exec_cb_shape w c u g cpu Hcpu) as (rec & out' & HE & Hout).
  assert (out' = out) as -> by (destruct HE as [E|E]; rewrite E in H; congruence).
  destruct Hout as [->|(cur & -> & Hcur)].
  - split; [cbn; lia|]. etrans; [apply length_filter|]. cbn. lia.
  - assert (Hcurlen : length cur <= 1)
      by (destruct Hcur as [->|[->|[->|[d ->]]]]; cbn; lia).
    pose proof (length_filter (fun e => is_diagnostic e = true) cur) as Hf.
    rewrite length_app, filter_app, Hnodiag. cbn [app]. lia.
Qed.

(** Instance: a bl after a pending msr makes two writes, no diagnostic. *)
Lemma exec_cb_prints_at_most_two_sample :
  length [Outs (read_register Sample.engine_switched 0 Sample.ttbr0
                  (new_record 0 (insn_output Sample.msr1)));
          Outs (new_record 0 (insn_output Sample.bl) +:+ nl)] <= 2
  /\ length (filter (fun e => is_diagnostic e = true)
               [Outs (read_register Sample.engine_switched 0 Sample.ttbr0
                        (new_record 0 (insn_output Sample.msr1)));
                Outs (new_record 0 (insn_output Sample.bl) +:+ nl)]) <= 1.
Proof.
  apply (exec_cb_prints_at_most_two Sample.engine_switched 0 (insn_output Sample.bl)
           Sample.after_msr1
           (set_insn_rec 0 {| insn_rec := new_record 0 (insn_output Sample.msr1); index := 0 |}
              (new_record 0 (insn_output Sample.bl) +:+ nl) Sample.after_msr1)).
  vm_compute. reflexivity.
Defined.

(** ** Runs: lines, slots and indices *)

Lemma read_register_ends_with_nl w c d rec : ends_with_nl (read_register w c d rec).
Proof. unfold read_register. eexists. reflexivity. Qed.

Lemma not_found_msg_ends_with_nl reg c : ends_with_nl (not_found_msg reg c).
Proof.
  exists ("Failed to find register " +:+ reg +:+ " on cpu " +:+ Fmt.dec c +:+ ".").
  unfold not_found_msg. rewrite !app_assoc_str. reflexivity.
Qed.

Lemma previous_out_lines w c cpu : Forall is_line (previous_out w c cpu).
Proof.
  unfold previous_out. destruct (has_insn _ _); [|constructor].
  destruct (get_reg_desc _ _); repeat constructor. apply read_register_ends_with_nl.
Qed.

Lemma exec_cb_lines w c u g g' out :
  vcpu_insn_exec_cb w c u g = Some (g', out) -> Forall is_line out.
Proof.
  intros H. destruct (get_cpu c g) as [cpu|] eqn:Hcpu.
  2:{ unfold vcpu_insn_exec_cb in H. rewrite Hcpu in H. discriminate H. }
  destruct (exec_cb_shape w c u g cpu Hcpu) as (rec & out' & HE & Hout).
  assert (out' = out) as -> by (destruct HE as [E|E]; rewrite E in H; congruence).
  destruct Hout as [->|(cur & -> & Hcur)].
  - repeat constructor. apply not_found_msg_ends_with_nl.
  - apply Forall_app. split; [apply previous_out_lines|].
    destruct Hcur as [->|[->|[->|[d ->]]]]; repeat constructor.
    + apply not_found_msg_ends_with_nl.
    + eexists. reflexivity.
    + apply read_register_ends_with_nl.
Qed.

Lemma run_cons_inv cb rest g g' out :
  run (cb :: rest) g = Some (g', out) ->
  exists g1 out1 out2,
    callback cb g = Some (g1, out1) /\ run rest g1 = Some (g', out2) /\ out = out1 ++ out2.
Proof.
  cbn [run]. destruct (callback cb g) as [[g1 out1]|]; [|discriminate].
  cbn [mbind option_bind]. destruct (run rest g1) as [[g2 out2]|] eqn:Hrest; [|discriminate].
  cbn [mbind option_bind]. intros [= <- <-].
  exists g1, out1, out2. rewrite Hrest. repeat split.
Qed.

(** X7: whatever the callbacks, everything the plugin writes, to the log or
    to the error stream, is a sequence of full lines: each piece ends with
    a newline. *)
Theorem run_prints_full_lines (cbs : list Callback) (g g' : Globals) (out : list Event) :
  run cbs g = Some (g', out) -> Forall is_line out.
Proof.
  revert g out. induction cbs as [|cb cbs IH]; intros g out H.
  - injection H as _ <-. constructor.
  - apply run_cons_inv in H as (g1 & out1 & out2 & Hcb & Hrest & ->).
    apply Forall_app. split; [|apply (IH _ _ Hrest)].
    destruct cb as [w c u|i|]; cbn [callback] in Hcb.
    + apply (exec_cb_lines _ _ _ _ _ _ Hcb).
    + injection Hcb as _ <-. constructor.
    + injection Hcb as Hcb. unfold plugin_exit in Hcb.
      rewrite plugin_exit_loop_spec in Hcb. injection Hcb as _ <-.
      apply Forall_fmap, Forall_forall. intros cpu _. eexists. reflexivity.
Qed.

(** Instance: the two lines of a bl followed by the exit of the plugin. *)
Lemma run_prints_full_lines_sample :
  Forall is_line
    [Outs (new_record 0 (insn_output Sample.bl) +:+ nl);
     Outs ((new_record 0 (insn_output Sample.bl) +:+ nl) +:+ nl)].
Proof.
  apply (run_prints_full_lines
           [VcpuInit 0; InsnExec Sample.engine 0 (insn_output Sample.bl); PluginExit]
           initial_globals
           {| cpus := [ {| insn_rec := (new_record 0 (insn_output Sample.bl) +:+ nl) +:+ nl;
                           index := 0 |} ];
              fmt_bin := false |}).
  vm_compute. reflexivity.
Defined.

Lemma callback_keeps_slots cb g g1 out :
  callback cb g = Some (g1, out) ->
  (index <$> cpus g) `prefix_of` (index <$> cpus g1) /\ fmt_bin g1 = fmt_bin g.
Proof.
  destruct cb as [w c u|i|]; cbn [callback]; intros H.
  - destruct (exec_cb_frame _ _ _ _ _ _ H) as (_ & Hf & -> & _). split; [reflexivity|exact Hf].
  - injection H as <- _. split.
    + rewrite vcpu_init_cpus, fmap_app. apply prefix_app_r. reflexivity.
    + unfold vcpu_init. destruct (decide _); reflexivity.
  - injection H as H. unfold plugin_exit in H. rewrite plugin_exit_loop_spec in H.
    injection H as <- _. cbn [cpus fmt_bin]. split; [|reflexivity].
    rewrite <- list_fmap_compose. reflexivity.
Qed.

(** X8: no callback removes a slot, moves one or changes the index stored
    in it: after any run, the indices of the old slots are the first ones of
    the array, in the same order; [fmt_bin] is what it was. *)
Theorem run_keeps_slots_and_indices
    (cbs : list Callback) (g g' : Globals) (out : list Event) :
  run cbs g = Some (g', out) ->
  (index <$> cpus g) `prefix_of` (index <$> cpus g')
  /\ num_cpus g <= num_cpus g'
  /\ fmt_bin g' = fmt_bin g.
Proof.
  intros H.
  assert (Hpre : (index <$> cpus g) `prefix_of` (index <$> cpus g') /\ fmt_bin g' = fmt_bin g).
  { revert g out H. induction cbs as [|cb cbs IH]; intros g out H.
    - injection H as <- _. split; reflexivity.
    - apply run_cons_inv in H as (g1 & out1 & out2 & Hcb & Hrest & _).
      destruct (callback_keeps_slots _ _ _ _ Hcb) as [Hp1 Hf1].
      destruct (IH _ _ Hrest) as [Hp2 Hf2].
      split; [etrans; eassumption|congruence]. }
  destruct Hpre as [Hp Hf]. split; [exact Hp|]. split; [|exact Hf].
  apply prefix_length in Hp. rewrite !length_fmap in Hp. exact Hp.
Qed.

(** Instance: an msr on cpu 0, then cpu 2 coming online. *)
Lemma run_keeps_slots_and_indices_sample :
  (index <$> cpus Sample.one_cpu)
    `prefix_of` (index <$> cpus (vcpu_init 2 (set_insn_rec 0 {| insn_rec := ""; index := 0 |}
                                               (new_record 0 (insn_output Sample.msr1))
                                               Sample.one_cpu)))
  /\ num_cpus Sample.one_cpu
     <= num_cpus (vcpu_init 2 (set_insn_rec 0 {| insn_rec := ""; index := 0 |}
                                 (new_record 0 (insn_output Sample.msr1)) Sample.one_cpu))
  /\ fmt_bin (vcpu_init 2 (set_insn_rec 0 {| insn_rec := ""; index := 0 |}
                             (new_record 0 (insn_output Sample.msr1)) Sample.one_cpu))
     = fmt_bin Sample.one_cpu.
Proof.
  apply (run_keeps_slots_and_indices
           [InsnExec Sample.engine 0 (insn_output Sample.msr1); VcpuInit 2]
           Sample.one_cpu _ []).
  vm_compute. reflexivity.
Defined.

(** ** Cpus coming online *)

(** X9: after cpus came online in any order, starting from no slot, every
    slot holds an empty record and the index of a cpu that did come online,
    at least the position of the slot; and [get_cpu] succeeds exactly for
    the positions up to the largest index seen. *)
Theorem online_slots (l : list nat) :
  (forall k cpu,
      cpus (online l) !! k = Some cpu ->
      k <= index cpu /\ index cpu ∈ l /\ insn_rec cpu = "")
  /\ (forall i, is_Some (get_cpu i (online l)) <-> exists x, x ∈ l /\ i <= x).
Proof.
  induction l as [|x l [IHslots IHget]] using rev_ind.
  - split.
    + intros k cpu H. discriminate H.
    + intros i. split.
      * intros [cpu H]. discriminate H.
      * intros (x & Hx & _). apply elem_of_nil in Hx. destruct Hx.
  - rewrite online_snoc. split.
    + intros k cpu. rewrite vcpu_init_cpus. intros H.
      apply lookup_app_Some in H as [H|[Hge H]].
      * destruct (IHslots k cpu H) as (Hk & Hin & Hrec).
        split; [exact Hk|]. split; [apply elem_of_app; left; exact Hin|exact Hrec].
      * apply lookup_replicate in H as [-> Hlt]. cbn [index insn_rec].
        unfold num_cpus in Hlt. split; [lia|]. split; [|reflexivity].
        apply elem_of_app. right. left.
    + intros i. unfold get_cpu. rewrite lookup_lt_is_Some.
      fold (num_cpus (vcpu_init x (online l))). rewrite vcpu_init_num_cpus.
      unfold get_cpu in IHget. specialize (IHget i).
      rewrite lookup_lt_is_Some in IHget. fold (num_cpus (online l)) in IHget.
      split.
      * intros Hi. destruct (decide (i < num_cpus (online l))) as [Hlt|Hge].
        -- apply IHget in Hlt as (y & Hy & Hiy). exists y.
           split; [apply elem_of_app; left; exact Hy|exact Hiy].
        -- exists x. split; [apply elem_of_app; right; left|lia].
      * intros (y & Hy & Hiy). apply elem_of_app in Hy as [Hy|Hy].
        -- assert (i < num_cpus (online l)) by (apply IHget; exists y; auto). lia.
        -- apply list_elem_of_singleton in Hy as ->. lia.
Qed.

(** Instance: after cpu 2 alone came online there are three slots, and slot
    1 stands for cpu 2. *)
Lemma online_slots_sample :
  (1 <= 2 /\ 2 ∈ [2] /\ insn_rec {| insn_rec := ""; index := 2 |} = "")
  /\ is_Some (get_cpu 1 (online [2])).
Proof.
  pose proof (online_slots [2]) as [Hslots Hget]. split.
  - apply (Hslots 1 {| insn_rec := ""; index := 2 |}). reflexivity.
  - apply Hget. exists 2. split; [left|lia].
Defined.

(** X10: a cpu that comes online when it has a slot already changes
    nothing, so its pending record is kept; coming online twice is the same
    as once; and after it came online [get_cpu] finds its slot. *)
Theorem vcpu_init_again (i : nat) (g : Globals) :
  (i < num_cpus g -> vcpu_init i g = g)
  /\ vcpu_init i (vcpu_init i g) = vcpu_init i g
  /\ is_Some (get_cpu i (vcpu_init i g)).
Proof.
  assert (Hnoop : forall g0, i < num_cpus g0 -> vcpu_init i g0 = g0).
  { intros g0 Hlt. unfold vcpu_init. destruct (decide (num_cpus g0 <= i)); [lia|reflexivity]. }
  split; [apply Hnoop|].
  assert (Hlt : i < num_cpus (vcpu_init i g)) by (rewrite vcpu_init_num_cpus; lia).
  split; [apply Hnoop, Hlt|].
  apply lookup_lt_is_Some. exact Hlt.
Qed.

(** Instance: cpu 0 coming online again keeps its pending msr record. *)
Lemma vcpu_init_again_sample : vcpu_init 0 Sample.after_msr1 = Sample.after_msr1.
Proof. apply (vcpu_init_again 0 Sample.after_msr1); cbn; lia. Defined.

(** ** Records left in a slot *)

(** X11: an instruction that is no bl or blr prints nothing of its own in
    its callback; if the plugin exits before the next callback of that cpu,
    [plugin_exit] prints its record without a register segment. *)
Theorem pending_record_printed_at_exit
    (w : Engine) (c : nat) (u : string) (g : Globals) (cpu : CPU) :
  get_cpu c g = Some cpu ->
  goes_on w cpu ->
  has_insn (new_record c u) "bl" = false ->
  exists g1,
    vcpu_insn_exec_cb w c u g = Some (g1, previous_out w c cpu)
    /\ Outs (new_record c u +:+ nl) ∈ (plugin_exit g1).2.
Proof.
  intros Hcpu Hgo Hbl. exists (set_insn_rec c cpu (new_record c u) g). split.
  - rewrite (exec_cb_goes_on w c u g cpu Hcpu Hgo). cbv zeta.
    rewrite (has_insn_no_bl_no_blr _ Hbl), Hbl. reflexivity.
  - unfold plugin_exit. rewrite plugin_exit_loop_spec. cbn [snd].
    apply (list_elem_of_fmap_2' (fun c => Outs (insn_rec c +:+ nl))
             _ {| insn_rec := new_record c u; index := index cpu |}); [|reflexivity].
    eapply list_elem_of_lookup_2.
    apply (get_cpu_set_insn_rec c cpu (new_record c u) g Hcpu).
Qed.

(** Instance: an msr on cpu 0, then the exit of the plugin. *)
Lemma pending_record_printed_at_exit_sample :
  exists g1,
    vcpu_insn_exec_cb Sample.engine 0 (insn_output Sample.msr1) Sample.one_cpu
    = Some (g1, previous_out Sample.engine 0 {| insn_rec := ""; index := 0 |})
    /\ Outs (new_record 0 (insn_output Sample.msr1) +:+ nl) ∈ (plugin_exit g1).2.
Proof.
  apply (pending_record_printed_at_exit Sample.engine 0 (insn_output Sample.msr1)
           Sample.one_cpu {| insn_rec := ""; index := 0 |}).
  - reflexivity.
  - intros H. vm_compute in H. discriminate H.
  - vm_compute. reflexivity.
Defined.

(** X12: when the register named by a blr is not found, the callback prints
    a diagnostic that names the text after the last space of the record and
    the index stored in the slot, prints no record, and leaves the record
    without register segment in the slot, where [plugin_exit] prints it. *)
Theorem blr_register_not_found
    (w : Engine) (c : nat) (u : string) (g : Globals) (cpu : CPU) :
  get_cpu c g = Some cpu ->
  goes_on w cpu ->
  has_insn (new_record c u) "blr" = true ->
  get_reg_desc (qemu_plugin_get_registers w (index cpu)) (after_last_space u) = None ->
  exists g1,
    vcpu_insn_exec_cb w c u g
    = Some (g1, previous_out w c cpu
                ++ [Stderr ("Failed to find register " +:+ after_last_space u
                            +:+ " on cpu " +:+ Fmt.dec (index cpu) +:+ "." +:+ nl)])
    /\ get_cpu c g1 = Some {| insn_rec := new_record c u; index := index cpu |}
    /\ Outs (new_record c u +:+ nl) ∈ (plugin_exit g1).2.
Proof.
  intros Hcpu Hgo Hblr Hnone. exists (set_insn_rec c cpu (new_record c u) g).
  split; [|split].
  - rewrite (exec_cb_goes_on w c u g cpu Hcpu Hgo). cbv zeta.
    rewrite Hblr, Hnone. reflexivity.
  - apply get_cpu_set_insn_rec, Hcpu.
  - unfold plugin_exit. rewrite plugin_exit_loop_spec. cbn [snd].
    apply (list_elem_of_fmap_2' (fun c => Outs (insn_rec c +:+ nl))
             _ {| insn_rec := new_record c u; index := index cpu |}); [|reflexivity].
    eapply list_elem_of_lookup_2.
    apply (get_cpu_set_insn_rec c cpu (new_record c u) g Hcpu).
Qed.

(** Instance: [blr x3] on cpu 0 of an engine that lists registers for cpu 1
    only. *)
Lemma blr_register_not_found_sample :
  exists g1,
    vcpu_insn_exec_cb Sample.engine_cpu1_only 0 (insn_output Sample.blr) Sample.one_cpu
    = Some (g1, previous_out Sample.engine_cpu1_only 0 {| insn_rec := ""; index := 0 |}
                ++ [Stderr ("Failed to find register "
                            +:+ after_last_space (insn_output Sample.blr)
                            +:+ " on cpu " +:+ Fmt.dec 0 +:+ "." +:+ nl)])
    /\ get_cpu 0 g1
       = Some {| insn_rec := new_record 0 (insn_output Sample.blr); index := 0 |}
    /\ Outs (new_record 0 (insn_output Sample.blr) +:+ nl) ∈ (plugin_exit g1).2.
Proof.
  apply (blr_register_not_found Sample.engine_cpu1_only 0 (insn_output Sample.blr)
           Sample.one_cpu {| insn_rec := ""; index := 0 |}).
  - reflexivity.
  - intros H. vm_compute in H. discriminate H.
  - vm_compute. reflexivity.
  - vm_compute. reflexivity.
Defined.

(** ** The scanner: order and composition *)

Lemma vcpu_tb_trans_loop_range k insns r :
  r ∈ vcpu_tb_trans_loop k insns ->
  k <= reg_insn r < k + length insns /\ reg_flags r = QEMU_PLUGIN_CB_R_REGS.
Proof.
  revert k. induction insns as [|insn insns IH]; intros k; cbn [vcpu_tb_trans_loop length].
  - intros H. apply elem_of_nil in H. destruct H.
  - intros H. apply elem_of_app in H as [H|H].
    + destruct (skip _).
      * apply elem_of_nil in H. destruct H.
      * apply list_elem_of_singleton in H as ->. cbn. split; [lia|reflexivity].
    + apply IH in H as [H1 H2]. split; [lia|exact H2].
Qed.

Lemma vcpu_tb_trans_loop_ordered k insns a b ra rb :
  a < b ->
  vcpu_tb_trans_loop k insns !! a = Some ra ->
  vcpu_tb_trans_loop k insns !! b = Some rb ->
  reg_insn ra < reg_insn rb.
Proof.
  revert k a b. induction insns as [|insn insns IH]; intros k a b Hab; [discriminate|].
  cbn [vcpu_tb_trans_loop]. destruct (skip _); cbn [app]; [apply IH, Hab|].
  destruct b as [|b]; [lia|]. cbn [lookup list_lookup]. destruct a as [|a].
  - intros [= <-] Hb. apply list_elem_of_lookup_2, vcpu_tb_trans_loop_range in Hb.
    cbn [reg_insn]. lia.
  - apply IH. lia.
Qed.

Lemma vcpu_tb_trans_loop_length k insns :
  length (vcpu_tb_trans_loop k insns)
  = length (filter (fun insn => interesting (qemu_plugin_insn_disas insn) = true) insns).
Proof.
  revert k. induction insns as [|insn insns IH]; intros k; [reflexivity|].
  cbn [vcpu_tb_trans_loop]. rewrite length_app, IH, skip_interesting.
  destruct (interesting (qemu_plugin_insn_disas insn)) eqn:E; cbn [negb length].
  - rewrite filter_cons_True by exact E. reflexivity.
  - rewrite filter_cons_False by congruence. reflexivity.
Qed.

(** X13: the registrations of a block are made in the order of its
    instructions, each for a position inside the block and with read access
    to the registers; there are as many as instructions whose disassembly
    starts with "bl" or "msr ttbr0". *)
Theorem vcpu_tb_trans_in_block_order (tb : list qemu_plugin_insn) :
  (forall a b ra rb,
      a < b -> vcpu_tb_trans tb !! a = Some ra -> vcpu_tb_trans tb !! b = Some rb ->
      reg_insn ra < reg_insn rb)
  /\ (forall r, r ∈ vcpu_tb_trans tb ->
                reg_insn r < length tb /\ reg_flags r = QEMU_PLUGIN_CB_R_REGS)
  /\ length (vcpu_tb_trans tb)
     = length (filter (fun insn => interesting (qemu_plugin_insn_disas insn) = true) tb).
Proof.
  split; [apply vcpu_tb_trans_loop_ordered|]. split; [|apply vcpu_tb_trans_loop_length].
  intros r Hr. apply vcpu_tb_trans_loop_range in Hr as [H1 H2]. split; [lia|exact H2].
Qed.

(** Instance: in the block bl, nop, blr, msr the first two registrations are
    for positions 0 and 2. *)
Lemma vcpu_tb_trans_in_block_order_sample :
  reg_insn {| reg_insn := 0; reg_flags := QEMU_PLUGIN_CB_R_REGS;
              reg_udata := insn_output Sample.bl |}
  < reg_insn {| reg_insn := 2; reg_flags := QEMU_PLUGIN_CB_R_REGS;
                reg_udata := insn_output Sample.blr |}.
Proof.
  pose proof (vcpu_tb_trans_in_block_order
                [Sample.bl; Sample.nop; Sample.blr; Sample.msr1]) as [Horder _].
  apply (Horder 0 1); [lia|reflexivity|reflexivity].
Defined.

Lemma vcpu_tb_trans_loop_shift n k insns :
  vcpu_tb_trans_loop (n + k) insns = shift_registration n <$> vcpu_tb_trans_loop k insns.
Proof.
  revert k. induction insns as [|insn insns IH]; intros k; [reflexivity|].
  cbn [vcpu_tb_trans_loop]. rewrite fmap_app, <- IH, Nat.add_succ_r.
  destruct (skip _); reflexivity.
Qed.

Lemma vcpu_tb_trans_loop_app k tb1 tb2 :
  vcpu_tb_trans_loop k (tb1 ++ tb2)
  = vcpu_tb_trans_loop k tb1 ++ vcpu_tb_trans_loop (length tb1 + k) tb2.
Proof.
  revert k. induction tb1 as [|insn tb1 IH]; intros k; [reflexivity|].
  cbn [app vcpu_tb_trans_loop length]. rewrite IH, <- (assoc (++)), Nat.add_succ_r.
  reflexivity.
Qed.

(** X14: scanning a block made of two parts registers what scanning the
    first part registers, then what scanning the second registers, with its
    positions moved past the first part; the scan of an instruction does not
    depend on its neighbours. *)
Theorem vcpu_tb_trans_app (tb1 tb2 : list qemu_plugin_insn) :
  vcpu_tb_trans (tb1 ++ tb2)
  = vcpu_tb_trans tb1 ++ (shift_registration (length tb1) <$> vcpu_tb_trans tb2).
Proof.
  unfold vcpu_tb_trans. rewrite vcpu_tb_trans_loop_app, <- vcpu_tb_trans_loop_shift.
  reflexivity.
Qed.

(** ** From the scanner to the callback *)




(** ** The options of the plugin *)

Section Options.

Variable bool_parse : option string -> option string -> option bool.

Lemma split_first_eq_Some s a b :
  GLib.split_first_eq s = Some (a, b) -> s = a +:+ String "=" b.
Proof.
  revert a. induction s as [|c s IH]; intros a; cbn [GLib.split_first_eq]; [discriminate|].
  destruct (Ascii.eqb_spec c "=") as [->|_].
  - intros [= <- <-]. reflexivity.
  - destruct (GLib.split_first_eq s) as [[a' b']|]; [|discriminate].
    intros [= <- <-]. rewrite app_cons, <- (IH a' eq_refl). reflexivity.
Qed.

(** An option passes the two tests of the loop exactly when it is spelled
    [binary] or [binary=<value>] and the boolean parser accepts the value. *)
Lemma accepted_iff_spelling (opt : string) :
  accepted bool_parse opt = true <->
  (opt = "binary" /\ is_Some (bool_parse (Some "binary") None))
  \/ (exists v, opt = "binary=" +:+ v /\ is_Some (bool_parse (Some "binary") (Some v))).
Proof.
  assert (Hnn : forall o : option bool, non_null o = true <-> is_Some o).
  { intros [x|]; cbn; split; try discriminate; eauto. intros [? [=]]. }
  unfold accepted. cbv zeta. rewrite andb_true_iff, g_strcmp0_eq_true. split.
  - intros [Hkey Hval]. rewrite Hkey in Hval. apply Hnn in Hval.
    unfold GLib.g_strsplit_eq_2 in Hkey, Hval. destruct opt as [|c opt]; [discriminate|].
    destruct (GLib.split_first_eq (String c opt)) as [[a b]|] eqn:E.
    + injection Hkey as ->. right. exists b. split; [|exact Hval].
      apply split_first_eq_Some in E. exact E.
    + cbn in Hkey. left. split; [congruence|exact Hval].
  - intros [[-> H]|(v & -> & H)]; (split; [reflexivity|]); apply Hnn; exact H.
Qed.

(** X16: [qemu_plugin_install] succeeds, returning 0 with its three
    callbacks registered, exactly when every option is spelled in one of two
    ways: the bare key [binary], parsed with no value, or [binary=<value>],
    where the value is all that follows the first '='; and the boolean
    parser accepts that value.  Any other option makes it return -1. *)
Theorem install_accepts_two_spellings (info : qemu_info_t) (argv : list string) :
  let well_spelled opt :=
    (opt = "binary" /\ is_Some (bool_parse (Some "binary") None))
    \/ (exists v, opt = "binary=" +:+ v /\ is_Some (bool_parse (Some "binary") (Some v))) in
  let r := qemu_plugin_install bool_parse info argv in
  (ret r = 0%Z <-> Forall well_spelled argv)
  /\ (ret r = 0%Z -> registered r = [Vcpu_init_cb; Vcpu_tb_trans_cb; Atexit_cb])
  /\ (ret r <> 0%Z -> ret r = (-1)%Z /\ registered r = []).
Proof.
  intros well_spelled r. subst r well_spelled. unfold qemu_plugin_install.
  destruct (parse_options_spec bool_parse argv initial_globals) as (Hok & _ & _).
  destruct (parse_options bool_parse argv initial_globals) as [[ok g] evs].
  cbn [fst snd] in Hok.
  assert (Hall : ok = true <->
                 Forall (fun opt =>
                           (opt = "binary" /\ is_Some (bool_parse (Some "binary") None))
                           \/ (exists v, opt = "binary=" +:+ v
                                          /\ is_Some (bool_parse (Some "binary") (Some v))))
                        argv).
  { rewrite Hok, forallb_forall, Forall_forall. split; intros H opt Hin.
    - apply accepted_iff_spelling, H, list_elem_of_In, Hin.
    - apply accepted_iff_spelling, H, list_elem_of_In, Hin. }
  destruct ok; cbn [ret registered].
  - split; [split; [intros _; apply Hall; reflexivity|reflexivity]|].
    split; [reflexivity|]. intros H. destruct H. reflexivity.
  - split; [split; [discriminate|]|].
    + intros H. apply Hall in H. discriminate H.
    + split; [discriminate|]. intros _. split; reflexivity.
Qed.

Lemma parse_options_rejects good bad rest g :
  forallb (accepted bool_parse) good = true ->
  accepted bool_parse bad = false ->
  (parse_options bool_parse (good ++ bad :: rest) g).1.1 = false
  /\ (parse_options bool_parse (good ++ bad :: rest) g).2
     = replicate (length good) not_yet_supported ++ [rejection bad].
Proof.
  revert g. induction good as [|opt good IH]; intros g Hgood Hbad.
  - cbn [app parse_options length replicate]. unfold accepted in Hbad. cbv zeta in Hbad.
    unfold rejection. destruct (GLib.g_strcmp0_eq _ _); [|split; reflexivity].
    destruct (bool_parse _ _); [discriminate|split; reflexivity].
  - cbn [forallb] in Hgood. apply andb_prop in Hgood as [Hopt Hgood].
    cbn [app parse_options length replicate]. unfold accepted in Hopt. cbv zeta in Hopt.
    destruct (GLib.g_strcmp0_eq _ _); [|discriminate].
    destruct (bool_parse _ _) as [b|]; [|discriminate].
    specialize (IH {| cpus := cpus g; fmt_bin := b |} Hgood Hbad).
    destruct (parse_options bool_parse (good ++ bad :: rest) _) as [[ok g'] evs].
    cbn [fst snd] in *. destruct IH as [-> ->]. split; reflexivity.
Qed.

(** X17: the options are read in order up to the first one that is not
    accepted.  The installation then fails with no callback registered,
    having printed one "not yet supported" line for each option before it
    and one line naming the rejected option; what follows it is not
    looked at. *)
Theorem install_stops_at_first_rejected
    (info : qemu_info_t) (good : list string) (bad : string) (rest : list string) :
  forallb (accepted bool_parse) good = true ->
  accepted bool_parse bad = false ->
  let r := qemu_plugin_install bool_parse info (good ++ bad :: rest) in
  ret r = (-1)%Z
  /\ registered r = []
  /\ diagnostics r = replicate (length good) not_yet_supported ++ [rejection bad].
Proof.
  intros Hgood Hbad r. subst r. unfold qemu_plugin_install.
  destruct (parse_options_rejects good bad rest initial_globals Hgood Hbad) as [Hok Hevs].
  destruct (parse_options bool_parse (good ++ bad :: rest) initial_globals) as [[ok g] evs].
  cbn [fst snd] in *. subst ok evs. repeat split.
Qed.

Lemma parse_options_last argv opt b g :
  forallb (accepted bool_parse) (argv ++ [opt]) = true ->
  bool_parse (GLib.g_strsplit_eq_2 opt !! 0%nat) (GLib.g_strsplit_eq_2 opt !! 1%nat) = Some b ->
  (parse_options bool_parse (argv ++ [opt]) g).1.1 = true
  /\ fmt_bin (parse_options bool_parse (argv ++ [opt]) g).1.2 = b.
Proof.
  revert g. induction argv as [|o argv IH]; intros g Hacc Hb;
    cbn [app forallb] in Hacc; apply andb_prop in Hacc as [Ho Hacc];
    cbn [app parse_options]; unfold accepted in Ho; cbv zeta in Ho;
    (destruct (GLib.g_strcmp0_eq _ _); [|discriminate]).
  - rewrite Hb. split; reflexivity.
  - destruct (bool_parse (GLib.g_strsplit_eq_2 o !! 0%nat) _) as [b0|]; [|discriminate].
    specialize (IH {| cpus := cpus g; fmt_bin := b0 |} Hacc Hb).
    destruct (parse_options bool_parse (argv ++ [opt]) _) as [[ok g'] evs].
    exact IH.
Qed.

(** X18: when every option is accepted the installation succeeds and
    [fmt_bin] holds the boolean of the last option: a later [binary] option
    overrides the earlier ones. *)
Theorem install_last_binary_wins
    (info : qemu_info_t) (argv : list string) (opt : string) (b : bool) :
  forallb (accepted bool_parse) (argv ++ [opt]) = true ->
  bool_parse (GLib.g_strsplit_eq_2 opt !! 0%nat) (GLib.g_strsplit_eq_2 opt !! 1%nat) = Some b ->
  let r := qemu_plugin_install bool_parse info (argv ++ [opt]) in
  ret r = 0%Z /\ fmt_bin (globals r) = b.
Proof.
  intros Hacc Hb r. subst r. unfold qemu_plugin_install.
  destruct (parse_options_last argv opt b initial_globals Hacc Hb) as [Hok Hfmt].
  destruct (parse_options bool_parse (argv ++ [opt]) initial_globals) as [[ok g] evs].
  cbn [fst snd] in *. subst ok. split; [reflexivity|exact Hfmt].
Qed.

End Options.

(** Instances, with a parser that reads on/off, true/false, yes/no, y/n:
    [binary=on], [binary=off] installs, and [binary=on], [binary] does not,
    the parser wanting a value; [binary=on], [verbose], [binary=off]
    fails at [verbose]; [binary=on], [binary=off] leaves [fmt_bin] false. *)
Lemma install_accepts_two_spellings_sample :
  ret (qemu_plugin_install Sample.bool_parse Sample.info ["binary=on"; "binary=off"]) = 0%Z
  /\ ret (qemu_plugin_install Sample.bool_parse Sample.info ["binary=on"; "binary"]) = (-1)%Z.
Proof.
  split.
  - apply (install_accepts_two_spellings Sample.bool_parse Sample.info
             ["binary=on"; "binary=off"]).
    constructor; [right; exists "on"; split; [reflexivity|eexists; reflexivity]|].
    constructor; [right; exists "off"; split; [reflexivity|eexists; reflexivity]|].
    constructor.
  - apply (install_accepts_two_spellings Sample.bool_parse Sample.info
             ["binary=on"; "binary"]).
    vm_compute. discriminate.
Defined.

Lemma install_stops_at_first_rejected_sample :
  let r := qemu_plugin_install Sample.bool_parse Sample.info
             (["binary=on"] ++ "verbose" :: ["binary=off"]) in
  ret r = (-1)%Z
  /\ registered r = []
  /\ diagnostics r = replicate 1 not_yet_supported ++ [rejection "verbose"].
Proof.
  apply (install_stops_at_first_rejected Sample.bool_parse Sample.info
           ["binary=on"] "verbose" ["binary=off"]); reflexivity.
Defined.

Lemma install_last_binary_wins_sample :
  let r := qemu_plugin_install Sample.bool_parse Sample.info (["binary=on"] ++ ["binary=off"]) in
  ret r = 0%Z /\ fmt_bin (globals r) = false.
Proof.
  apply (install_last_binary_wins Sample.bool_parse Sample.info ["binary=on"] "binary=off" false);
    reflexivity.
Defined.

(** ** Reading a register segment back *)

Lemma hex_value_digit d : (d < 16)%N -> hex_value (Fmt.hex_digit d) = Some d.
Proof.
  intros Hd. destruct d as [|p]; [reflexivity|].
  do 4 (destruct p as [p|p|]; try reflexivity); lia.
Qed.

Lemma parse_hex_bytes_hex_bytes l : parse_hex_bytes (hex_bytes l +:+ nl) = Some l.
Proof.
  induction l as [|b l IH]; [reflexivity|].
  cbn [hex_bytes]. unfold Fmt.hex02. cbv zeta. rewrite !app_cons.
  change ("" +:+ hex_bytes l) with (hex_bytes l).
  cbn [parse_hex_bytes].
  pose proof (Byte.to_N_bounded b) as Hb.
  rewrite !hex_value_digit
    by (first [apply N.mod_lt; discriminate | apply N.Div0.div_lt_upper_bound; lia]).
  replace (16 * (Byte.to_N b / 16) + Byte.to_N b mod 16)%N with (Byte.to_N b)
    by (rewrite (N.div_mod (Byte.to_N b) 16) at 1; [reflexivity|discriminate]).
  rewrite Byte.of_to_N. cbn [mbind option_bind]. rewrite IH. reflexivity.
Qed.

(** X19: the segment [read_register] appends tells the bytes of the read:
    two reads of a register that give the same text gave the same bytes, so
    different register contents never print alike. *)
Theorem read_register_injective
    (w1 w2 : Engine) (c1 c2 : nat) (desc : qemu_plugin_reg_descriptor) (record : string) :
  read_register w1 c1 desc record = read_register w2 c2 desc record ->
  qemu_plugin_read_register w1 c1 (handle desc) = qemu_plugin_read_register w2 c2 (handle desc).
Proof.
  rewrite !read_register_spec. intros H.
  do 4 apply (inj (String.app _)) in H.
  apply (f_equal parse_hex_bytes) in H. rewrite !parse_hex_bytes_hex_bytes in H.
  injection H as H. apply (inj reverse), H.
Qed.

(** Instance: x3 read on two cpus of two engines, with the same text. *)
Lemma read_register_injective_sample :
  qemu_plugin_read_register Sample.engine 0 (handle Sample.x3)
  = qemu_plugin_read_register Sample.engine_switched 1 (handle Sample.x3).
Proof.
  apply (read_register_injective Sample.engine Sample.engine_switched 0 1 Sample.x3 "").
  reflexivity.
Defined.
